(** * models.py: a shallow embedding of the multi-task GCN modules

    The file follows [src/models.py] class by class.  Tensors carry their
    shape explicitly, parameters live in a store and are reached through
    locations (so that aliasing and in-place initialisation can be stated),
    and every Python call is a computation in a state-and-exception monad
    over the parameter store and the random generator. *)

From Stdlib Require Import List ZArith Lia Bool Arith Permutation Reals Lra.
From Stdlib Require Strings.String Strings.Ascii Numbers.DecimalString.
From Stdlib Require Numbers.DecimalZ Numbers.DecimalPos.
From Stdlib Require Floats.PrimFloat Floats.FloatOps.
From Stdlib Require Numbers.Cyclic.Int63.Uint63.
Import ListNotations.

Set Implicit Arguments.

(** ** Scalars

    The entries of a tensor.  The forward passes only use the operations
    below; no law is assumed about them unless a theorem says so, so the
    structural results hold for any arithmetic, rounding included. *)

Class Scalar : Type := {
  num : Type;
  zero : num;
  one : num;
  add : num -> num -> num;
  sub : num -> num -> num;
  mul : num -> num -> num;
  div : num -> num -> num;
  neg : num -> num;
  root : num -> num;          (* math.sqrt *)
  of_int : Z -> num;          (* int -> float conversion *)
  ltb : num -> num -> bool    (* x < y *)
}.

(** The algebraic laws of exact arithmetic that the permutation argument
    and the empty-sum argument use. *)
Record ScalarLaws (Sc : Scalar) : Prop := {
  add_0_l : forall x : num, add zero x = x;
  add_0_r : forall x : num, add x zero = x;
  add_comm : forall x y : num, add x y = add y x;
  add_assoc : forall x y z : num, add x (add y z) = add (add x y) z;
  mul_0_l : forall x : num, mul zero x = zero;
  mul_0_r : forall x : num, mul x zero = zero;
  mul_1_l : forall x : num, mul one x = x;
  mul_1_r : forall x : num, mul x one = x
}.

(** Exact integer arithmetic: the instance on which the model is run on
    small inputs. *)
Definition Zscalar : Scalar := {|
  num := Z; zero := 0%Z; one := 1%Z;
  add := Z.add; sub := Z.sub; mul := Z.mul; div := Z.div; neg := Z.opp;
  root := Z.sqrt; of_int := fun z => z; ltb := Z.ltb |}.

(** Real arithmetic: the instance in which the initialisation bound
    1/sqrt(out_features) is a number. *)
Definition Rscalar : Scalar := {|
  num := R; zero := 0%R; one := 1%R;
  add := Rplus; sub := Rminus; mul := Rmult; div := Rdiv; neg := Ropp;
  root := R_sqrt.sqrt; of_int := IZR;
  ltb := fun x y => if Rlt_dec x y then true else false |}.

(** IEEE 754 binary32 arithmetic, the arithmetic of the entries of a
    [torch.FloatTensor]: round to nearest, ties to even.  A binary32
    number is held as the binary64 number of the same value.  Each
    operation is the binary64 operation followed by [round], the rounding
    of a binary64 number to binary32; for the four operations and the
    square root on binary32 operands this is the correctly rounded
    binary32 result, since binary64 carries 53 >= 2 * 24 + 2 bits.
    The instance is for the tensor operations of the forward passes;
    the bound stdv, which [reset_parameters] computes with Python's own
    binary64 floats, is not computed in it. *)
Module Float32.

Definition float : Type := PrimFloat.float.

(** The integer [z], for |z| < 2^63, rounded to binary64. *)
Definition of_Z (z : Z) : float :=
  let m := PrimFloat.of_uint63 (Uint63.of_Z (Z.abs z)) in
  if (z <? 0)%Z then PrimFloat.opp m else m.

Definition pow2 (e : Z) : float := FloatOps.Z.ldexp PrimFloat.one e.

(** The integer nearest to [y], ties to even: below 2^52 in magnitude,
    adding and subtracting 2^52 rounds at the unit; from 2^52 on, every
    binary64 number is an integer. *)
Definition rint (y : float) : float :=
  if PrimFloat.ltb (PrimFloat.abs y) (pow2 52) then
    if PrimFloat.ltb y PrimFloat.zero
    then PrimFloat.add (PrimFloat.sub y (pow2 52)) (pow2 52)
    else PrimFloat.sub (PrimFloat.add y (pow2 52)) (pow2 52)
  else y.

(** [x] rounded to binary32.  For [x] in [2^(e-1), 2^e) in magnitude the
    binary32 numbers around it are the multiples of 2^q, with q = e - 24
    in the normal range and q = -149 below it; a result of magnitude
    2^128 or more overflows to an infinity; a result that rounds to zero
    keeps the sign of [x]. *)
Definition round (x : float) : float :=
  if (PrimFloat.is_nan x || PrimFloat.is_infinity x || PrimFloat.is_zero x)%bool
  then x
  else
    let e := snd (FloatOps.Z.frexp x) in
    let q := Z.max (e - 24) (-149) in
    let r := FloatOps.Z.ldexp (rint (FloatOps.Z.ldexp x (- q))) q in
    if PrimFloat.leb (pow2 128) (PrimFloat.abs r)
    then (if PrimFloat.ltb x PrimFloat.zero
          then PrimFloat.neg_infinity else PrimFloat.infinity)
    else if PrimFloat.is_zero r then PrimFloat.mul x PrimFloat.zero
    else r.

End Float32.

Definition F32scalar : Scalar := {|
  num := Float32.float; zero := PrimFloat.zero; one := PrimFloat.one;
  add := fun x y => Float32.round (PrimFloat.add x y);
  sub := fun x y => Float32.round (PrimFloat.sub x y);
  mul := fun x y => Float32.round (PrimFloat.mul x y);
  div := fun x y => Float32.round (PrimFloat.div x y);
  neg := PrimFloat.opp;
  root := fun x => Float32.round (PrimFloat.sqrt x);
  of_int := fun z => Float32.round (Float32.of_Z z);
  ltb := PrimFloat.ltb |}.

(** ** Exceptions, results and the monad *)

Inductive exn : Type :=
| ValueError          (* F.dropout: probability outside [0, 1] *)
| RuntimeError        (* torch: shape mismatch, negative dimension *)
| ZeroDivisionError   (* Python float division by 0.0 *)
| IndexError.         (* size(dim) with dim out of range *)

Inductive result (A : Type) : Type :=
| Ok (a : A)
| Raise (e : exn).
Arguments Raise {A} e.

Definition rbind {A B} (r : result A) (k : A -> result B) : result B :=
  match r with
  | Ok a => k a
  | Raise e => Raise e
  end.

Definition rmap {A B} (f : A -> B) (r : result A) : result B :=
  rbind r (fun a => Ok (f a)).

Section Model.
Context {Sc : Scalar}.

(** ** Tensors

    A tensor is its shape and its entries.  [Vec n d] is a 1-D tensor of
    shape (n), [Mat r c d] a 2-D tensor of shape (r, c) stored by rows.
    Entries are always read through [vget] and [mget]. *)

Inductive tensor : Type :=
| Vec (n : nat) (d : list num)
| Mat (r c : nat) (d : list (list num)).

Definition shape (t : tensor) : list nat :=
  match t with
  | Vec n _ => [n]
  | Mat r c _ => [r; c]
  end.

Definition vget (t : tensor) (i : nat) : num :=
  match t with
  | Vec _ d => nth i d zero
  | Mat _ _ _ => zero
  end.

Definition mget (t : tensor) (i j : nat) : num :=
  match t with
  | Vec _ _ => zero
  | Mat _ _ d => nth j (nth i d []) zero
  end.

Definition vtab (n : nat) (f : nat -> num) : tensor :=
  Vec n (map f (seq 0 n)).

Definition mtab (r c : nat) (f : nat -> nat -> num) : tensor :=
  Mat r c (map (fun i => map (f i) (seq 0 c)) (seq 0 r)).

(** Sequential accumulation [((0 + f 0) + f 1) + ... + f (n-1)]. *)
Fixpoint sum (n : nat) (f : nat -> num) : num :=
  match n with
  | O => zero
  | S k => add (sum k f) (f k)
  end.

(** ** The store and the generator *)

Definition loc := nat.

(** The default random generator: the sequence of unit draws still to be
    produced ([stream k] lies in [0, 1)) and the number already consumed. *)
Record generator : Type := { stream : nat -> num; offset : nat }.

Record state : Type := { params : list tensor; gen : generator }.

Definition M (A : Type) : Type := state -> result (A * state).

Definition ret {A} (a : A) : M A := fun s => Ok (a, s).

Definition bind {A B} (m : M A) (k : A -> M B) : M B :=
  fun s => match m s with
           | Ok (a, s') => k a s'
           | Raise e => Raise e
           end.

Definition raise {A} (e : exn) : M A := fun _ => Raise e.

Definition lift {A} (r : result A) : M A :=
  fun s => match r with
           | Ok a => Ok (a, s)
           | Raise e => Raise e
           end.

(** What a caller observes of a run: the value returned or the exception. *)
Definition outcome {A} (r : result (A * state)) : result A :=
  rmap fst r.

End Model.

Declare Scope monad_scope.
Delimit Scope monad_scope with monad.
Notation "x <- m ;; k" := (bind m (fun x => k))
  (at level 61, m at next level, right associativity) : monad_scope.
Notation "m ;;; k" := (bind m (fun _ => k))
  (at level 61, right associativity) : monad_scope.
Open Scope monad_scope.

(** ** The framework's primitives

    The operations of torch that [models.py] calls, with the behaviour the
    calls rely on: shape checks raise, [uniform_] fills a tensor in place,
    [F.dropout] validates its probability before looking at the mode. *)

Module Torch.
Section WithScalar.
Context {Sc : Scalar}.

Fixpoint update {A} (l : list A) (i : nat) (v : A) : list A :=
  match l, i with
  | [], _ => []
  | _ :: r, O => v :: r
  | x :: r, S j => x :: update r j v
  end.

Definition eqb (x y : num) : bool := negb (ltb x y) && negb (ltb y x).

(** Python's float division [x / y]. *)
Definition pydiv (x y : num) : M num :=
  if eqb y zero then raise ZeroDivisionError else ret (div x y).

Definition numel (t : tensor) : nat :=
  match t with
  | Vec n _ => n
  | Mat r c _ => r * c
  end.

(** [tmapi f t]: the tensor of the shape of [t] whose entry at flat
    (row-major) index [k] is [f k] of the entry of [t] there. *)
Definition tmapi (f : nat -> num -> num) (t : tensor) : tensor :=
  match t with
  | Vec n _ => vtab n (fun i => f i (vget t i))
  | Mat r c _ => mtab r c (fun i j => f (i * c + j) (mget t i j))
  end.

Definition tmap (f : num -> num) (t : tensor) : tensor :=
  tmapi (fun _ => f) t.

(** [torch.FloatTensor(r, c)] and [torch.FloatTensor(n)]: a fresh tensor of
    the given shape.  Its contents are unspecified in torch; every caller
    here overwrites them before any read, so the model fills it with 0. *)
Definition FloatTensor2 (r c : Z) : M tensor :=
  if ((r <? 0) || (c <? 0))%Z then raise RuntimeError
  else ret (mtab (Z.to_nat r) (Z.to_nat c) (fun _ _ => zero)).

Definition FloatTensor1 (n : Z) : M tensor :=
  if (n <? 0)%Z then raise RuntimeError
  else ret (vtab (Z.to_nat n) (fun _ => zero)).

(** [Parameter(t)]: a new parameter object holding [t]. *)
Definition new_Parameter (t : tensor) : M loc :=
  fun s => Ok (length (params s),
               {| params := params s ++ [t]; gen := gen s |}).

(** Reading a parameter.  A location outside the store does not arise from
    the constructors below. *)
Definition data (l : loc) : M tensor :=
  fun s => match nth_error (params s) l with
           | Some t => Ok (t, s)
           | None => Raise RuntimeError
           end.

(** [t.size(dim)] *)
Definition size (t : tensor) (dim : nat) : result Z :=
  match nth_error (shape t) dim with
  | Some n => Ok (Z.of_nat n)
  | None => Raise IndexError
  end.

(** One sample of U[lo, hi) from one unit draw. *)
Definition uniform_sample (lo hi u : num) : num :=
  add (mul u (sub hi lo)) lo.

Definition advance (g : generator) (n : nat) : generator :=
  {| stream := stream g; offset := offset g + n |}.

(** [p.data.uniform_(lo, hi)]: overwrites every entry of the parameter at
    [l], in place, each with its own draw of the generator. *)
Definition uniform_ (l : loc) (lo hi : num) : M unit :=
  fun s =>
    if ltb hi lo then Raise RuntimeError else
    match nth_error (params s) l with
    | None => Raise RuntimeError
    | Some t =>
        let g := gen s in
        let t' := tmapi (fun k _ =>
                    uniform_sample lo hi (stream g (offset g + k))) t in
        Ok (tt, {| params := update (params s) l t';
                   gen := advance g (numel t) |})
    end.

(** [torch.mm(a, b)] *)
Definition mm (a b : tensor) : result tensor :=
  match a, b with
  | Mat n k _, Mat k' m _ =>
      if k =? k'
      then Ok (mtab n m (fun i j =>
                 sum k (fun l => mul (mget a i l) (mget b l j))))
      else Raise RuntimeError
  | _, _ => Raise RuntimeError
  end.

(** [torch.spmm(adj, b)]: the same product; a sparse [adj] only changes how
    the operand is stored. *)
Definition spmm (adj b : tensor) : result tensor := mm adj b.

(** Broadcasting of one dimension. *)
Definition bdim (a b : nat) : option nat :=
  if a =? b then Some a
  else if a =? 1 then Some b
  else if b =? 1 then Some a
  else None.

Definition bidx (dim i : nat) : nat := if dim =? 1 then 0 else i.

(** [a + b] on tensors, with broadcasting. *)
Definition tadd (a b : tensor) : result tensor :=
  match a, b with
  | Vec n _, Vec m _ =>
      match bdim n m with
      | Some k => Ok (vtab k (fun i =>
                    add (vget a (bidx n i)) (vget b (bidx m i))))
      | None => Raise RuntimeError
      end
  | Mat r c _, Vec m _ =>
      match bdim c m with
      | Some k => Ok (mtab r k (fun i j =>
                    add (mget a i (bidx c j)) (vget b (bidx m j))))
      | None => Raise RuntimeError
      end
  | Vec n _, Mat r c _ =>
      match bdim n c with
      | Some k => Ok (mtab r k (fun i j =>
                    add (vget a (bidx n j)) (mget b i (bidx c j))))
      | None => Raise RuntimeError
      end
  | Mat r c _, Mat r' c' _ =>
      match bdim r r', bdim c c' with
      | Some p, Some q =>
          Ok (mtab p q (fun i j =>
                add (mget a (bidx r i) (bidx c j))
                    (mget b (bidx r' i) (bidx c' j))))
      | _, _ => Raise RuntimeError
      end
  end.

(** [F.relu] *)
Definition relu (x : tensor) : tensor :=
  tmap (fun v => if ltb v zero then zero else v) x.

(** [F.dropout(x, p, training)] *)
Definition dropout (x : tensor) (p : num) (training : bool) : M tensor :=
  if ltb p zero || ltb one p then raise ValueError
  else if negb training || eqb p zero || (numel x =? 0) then ret x
  else if eqb p one then ret (tmap (fun v => mul v zero) x)
  else fun s =>
    let g := gen s in
    let q := sub one p in
    let noise k := div (if ltb (stream g (offset g + k)) q
                        then one else zero) q in
    Ok (tmapi (fun k v => mul v (noise k)) x,
        {| params := params s; gen := advance g (numel x) |}).

(** [w.t()] *)
Definition t (w : tensor) : tensor :=
  match w with
  | Vec _ _ => w
  | Mat r c _ => mtab c r (fun i j => mget w j i)
  end.

(** [F.linear(x, w, b)]: [x * w^T + b] for [w] of shape (out, in) and [b]
    of shape (out) or (1), the bias expanded over the rows of a 2-D [x];
    a 1-D [x] of size in gives a 1-D result of size out. *)
Definition linear (x w b : tensor) : result tensor :=
  match x, b with
  | Mat _ _ _, Vec m _ =>
      rbind (mm x (t w)) (fun y =>
        match y with
        | Mat _ c _ => if (m =? c) || (m =? 1) then tadd y b
                       else Raise RuntimeError
        | Vec _ _ => Raise RuntimeError
        end)
  | Vec n _, Vec m _ =>
      match w with
      | Mat o i _ =>
          if (n =? i) && ((m =? o) || (m =? 1))
          then Ok (vtab o (fun k =>
                 add (sum n (fun j => mul (vget x j) (mget w k j)))
                     (vget b (bidx m k))))
          else Raise RuntimeError
      | Vec _ _ => Raise RuntimeError
      end
  | _, Mat _ _ _ => Raise RuntimeError
  end.

End WithScalar.
End Torch.

(** What the constructors need of the arithmetic in which the
    initialisation bounds are computed: [sqrt n] is 0 exactly for [n = 0],
    and a bound is not below its negation. *)
Record InitLaws (Sc : Scalar) : Prop := {
  root_zero : Torch.eqb (root (of_int 0)) zero = true;
  root_nonzero : forall n, (0 < n)%Z ->
    Torch.eqb (root (of_int n)) zero = false;
  bound_ordered : forall n, (0 < n)%Z ->
    ltb (div one (root (of_int n))) (neg (div one (root (of_int n)))) = false;
  zero_ordered : ltb zero (neg zero) = false
}.

(** ** nn.Linear (the framework's fully-connected layer)

    weight of shape (out_features, in_features), bias of shape
    (out_features); the default initialisation is uniform with the
    fan-in-scaled bound 1/sqrt(in_features), skipped for a weight without
    entries and with bound 0 for the bias when in_features is 0. *)

Module Linear.
Section WithScalar.
Context {Sc : Scalar}.

Record t : Type := {
  in_features : Z;
  out_features : Z;
  weight : loc;
  bias : loc
}.

Definition reset_parameters (self : t) : M unit :=
  let fan_in := in_features self in
  (if ((fan_in =? 0) || (out_features self =? 0))%Z then ret tt
   else bound <- Torch.pydiv one (root (of_int fan_in)) ;;
        Torch.uniform_ (weight self) (neg bound) bound) ;;;
  bound <- (if (0 <? fan_in)%Z
            then Torch.pydiv one (root (of_int fan_in))
            else ret zero) ;;
  Torch.uniform_ (bias self) (neg bound) bound.

Definition init (in_features out_features : Z) : M t :=
  w <- Torch.FloatTensor2 out_features in_features ;;
  wl <- Torch.new_Parameter w ;;
  b <- Torch.FloatTensor1 out_features ;;
  bl <- Torch.new_Parameter b ;;
  let self := {| in_features := in_features; out_features := out_features;
                 weight := wl; bias := bl |} in
  reset_parameters self ;;;
  ret self.

Definition forward (self : t) (input : tensor) : M tensor :=
  w <- Torch.data (weight self) ;;
  b <- Torch.data (bias self) ;;
  lift (Torch.linear input w b).

Definition parameters (self : t) : list loc := [weight self; bias self].

End WithScalar.
End Linear.

(** Python's [str] on an int: decimal digits, a leading [-] when
    negative, ["0"] for zero. *)
Definition str_int (z : Z) : String.string :=
  DecimalString.NilZero.string_of_int (Z.to_int z).

(** ** class GraphConvolution *)

Module GraphConvolution.
Section WithScalar.
Context {Sc : Scalar}.

Record t : Type := {
  in_features : Z;
  out_features : Z;
  weight : loc;
  bias : option loc
}.

Definition reset_parameters (self : t) : M unit :=
  w <- Torch.data (weight self) ;;
  n <- lift (Torch.size w 1) ;;
  stdv <- Torch.pydiv one (root (of_int n)) ;;
  Torch.uniform_ (weight self) (neg stdv) stdv ;;;
  match bias self with
  | Some b => Torch.uniform_ b (neg stdv) stdv
  | None => ret tt
  end.

Definition init (in_features out_features : Z) (bias : bool) : M t :=
  w <- Torch.FloatTensor2 in_features out_features ;;
  wl <- Torch.new_Parameter w ;;
  ob <- (if bias
         then b <- Torch.FloatTensor1 out_features ;;
              bl <- Torch.new_Parameter b ;;
              ret (Some bl)
         else ret None) ;;
  let self := {| in_features := in_features; out_features := out_features;
                 weight := wl; bias := ob |} in
  reset_parameters self ;;;
  ret self.

Definition forward (self : t) (input adj : tensor) : M tensor :=
  w <- Torch.data (weight self) ;;
  support <- lift (Torch.mm input w) ;;
  output <- lift (Torch.spmm adj support) ;;
  match bias self with
  | Some bl => b <- Torch.data bl ;; lift (Torch.tadd output b)
  | None => ret output
  end.

Definition parameters (self : t) : list loc :=
  weight self :: match bias self with Some b => [b] | None => [] end.

End WithScalar.

Section Repr.
Import Stdlib.Strings.String.
Local Open Scope string_scope.

(** [__repr__], for an instance of the class itself (its
    [__class__.__name__] is "GraphConvolution"). *)
Definition repr (self : t) : string :=
  (((("GraphConvolution" ++ " (") ++ str_int (in_features self)) ++ " -> ")
    ++ str_int (out_features self)) ++ ")".

End Repr.
End GraphConvolution.

(** ** class Encoder

    [training] is the mode flag every [nn.Module] carries; it is [True]
    after construction and switched by [eval()]. *)

Module Encoder.
Section WithScalar.
Context {Sc : Scalar}.

Record t : Type := {
  gc1 : GraphConvolution.t;
  gc2 : GraphConvolution.t;
  dropout : num;
  training : bool
}.

Definition init (nfeat nhid : Z) (dropout : num) : M t :=
  g1 <- GraphConvolution.init nfeat nhid true ;;
  g2 <- GraphConvolution.init nhid nhid true ;;
  ret {| gc1 := g1; gc2 := g2; dropout := dropout; training := true |}.

Definition forward (self : t) (x adj : tensor) : M tensor :=
  x <- Torch.dropout x (dropout self) (training self) ;;
  x <- (y <- GraphConvolution.forward (gc1 self) x adj ;; ret (Torch.relu y)) ;;
  x <- Torch.dropout x (dropout self) (training self) ;;
  x <- GraphConvolution.forward (gc2 self) x adj ;;
  ret x.

Definition eval (self : t) : t :=
  {| gc1 := gc1 self; gc2 := gc2 self; dropout := dropout self;
     training := false |}.

Definition parameters (self : t) : list loc :=
  GraphConvolution.parameters (gc1 self) ++
  GraphConvolution.parameters (gc2 self).

End WithScalar.
End Encoder.

(** ** class Discriminator *)

Module Discriminator.
Section WithScalar.
Context {Sc : Scalar}.

Record t : Type := {
  lr1 : Linear.t;
  lr2 : Linear.t;
  dropout : num;
  training : bool
}.

Definition init (nin nout : Z) (dropout : num) : M t :=
  l1 <- Linear.init nin (nin / 2)%Z ;;
  l2 <- Linear.init (nin / 2)%Z nout ;;
  ret {| lr1 := l1; lr2 := l2; dropout := dropout; training := true |}.

Definition forward (self : t) (x : tensor) : M tensor :=
  let x := Torch.relu x in
  x <- Torch.dropout x (dropout self) (training self) ;;
  x <- (y <- Linear.forward (lr1 self) x ;; ret (Torch.relu y)) ;;
  x <- Torch.dropout x (dropout self) (training self) ;;
  x <- Linear.forward (lr2 self) x ;;
  ret x.

Definition eval (self : t) : t :=
  {| lr1 := lr1 self; lr2 := lr2 self; dropout := dropout self;
     training := false |}.

Definition parameters (self : t) : list loc :=
  Linear.parameters (lr1 self) ++ Linear.parameters (lr2 self).

End WithScalar.
End Discriminator.

(** ** class MultiTask *)

Module MultiTask.
Section WithScalar.
Context {Sc : Scalar}.

Record t : Type := {
  encoder : Encoder.t;
  dis_neighbor : Discriminator.t;
  dis_anomlay : Discriminator.t
}.

Definition init (nfeat nhid nout : Z) (dropout : num) : M t :=
  e <- Encoder.init nfeat nhid dropout ;;
  dn <- Discriminator.init nhid nout dropout ;;
  da <- Discriminator.init nhid 2 dropout ;;
  ret {| encoder := e; dis_neighbor := dn; dis_anomlay := da |}.

Definition forward (self : t) (x adj : tensor)
  : M (tensor * tensor * tensor) :=
  x <- Encoder.forward (encoder self) x adj ;;
  pred_nc <- Discriminator.forward (dis_neighbor self) x ;;
  pred_ad <- Discriminator.forward (dis_anomlay self) x ;;
  ret (x, pred_nc, pred_ad).

Definition eval (self : t) : t :=
  {| encoder := Encoder.eval (encoder self);
     dis_neighbor := Discriminator.eval (dis_neighbor self);
     dis_anomlay := Discriminator.eval (dis_anomlay self) |}.

Definition parameters (self : t) : list loc :=
  Encoder.parameters (encoder self) ++
  Discriminator.parameters (dis_neighbor self) ++
  Discriminator.parameters (dis_anomlay self).

End WithScalar.
End MultiTask.

(** ** class SingleTask *)

Module SingleTask.
Section WithScalar.
Context {Sc : Scalar}.

Record t : Type := {
  encoder : Encoder.t;
  discriminator : Discriminator.t
}.

Definition init (nfeat nhid nout : Z) (dropout : num) : M t :=
  e <- Encoder.init nfeat nhid dropout ;;
  d <- Discriminator.init nhid nout dropout ;;
  ret {| encoder := e; discriminator := d |}.

Definition forward (self : t) (x adj : tensor) : M (tensor * tensor) :=
  x <- Encoder.forward (encoder self) x adj ;;
  pred <- Discriminator.forward (discriminator self) x ;;
  ret (x, pred).

Definition eval (self : t) : t :=
  {| encoder := Encoder.eval (encoder self);
     discriminator := Discriminator.eval (discriminator self) |}.

Definition parameters (self : t) : list loc :=
  Encoder.parameters (encoder self) ++
  Discriminator.parameters (discriminator self).

End WithScalar.
End SingleTask.

(** ** Vocabulary of the specification *)

Section Vocabulary.
Context {Sc : Scalar}.

(** The tensor a parameter holds, and its shape, in a given store. *)
Definition param (st : state) (l : loc) : tensor :=
  nth l (params st) (Vec 0 []).

Definition shape_at (st : state) (l : loc) : option (list nat) :=
  option_map shape (nth_error (params st) l).

(** A dropout probability that [F.dropout] accepts. *)
Definition valid_p (p : num) : bool := negb (ltb p zero || ltb one p).

(** The parameters of a module have, in [st], the shapes its constructor
    gave them.  An optimizer step keeps these shapes. *)
Definition gc_wf (st : state) (g : GraphConvolution.t) (i o : nat) : Prop :=
  shape_at st (GraphConvolution.weight g) = Some [i; o] /\
  match GraphConvolution.bias g with
  | Some b => shape_at st b = Some [o]
  | None => True
  end.

Definition linear_wf (st : state) (l : Linear.t) (i o : nat) : Prop :=
  shape_at st (Linear.weight l) = Some [o; i] /\
  shape_at st (Linear.bias l) = Some [o].

Definition encoder_wf (st : state) (e : Encoder.t) (nfeat nhid : nat) : Prop :=
  gc_wf st (Encoder.gc1 e) nfeat nhid /\ gc_wf st (Encoder.gc2 e) nhid nhid.

Definition discriminator_wf (st : state) (d : Discriminator.t)
    (nin nout : nat) : Prop :=
  linear_wf st (Discriminator.lr1 d) nin (nin / 2) /\
  linear_wf st (Discriminator.lr2 d) (nin / 2) nout.

Definition multitask_wf (st : state) (m : MultiTask.t)
    (nfeat nhid nout : nat) : Prop :=
  encoder_wf st (MultiTask.encoder m) nfeat nhid /\
  discriminator_wf st (MultiTask.dis_neighbor m) nhid nout /\
  discriminator_wf st (MultiTask.dis_anomlay m) nhid 2.

Definition singletask_wf (st : state) (m : SingleTask.t)
    (nfeat nhid nout : nat) : Prop :=
  encoder_wf st (SingleTask.encoder m) nfeat nhid /\
  discriminator_wf st (SingleTask.discriminator m) nhid nout.

(** Entry (r, k) of [A * (X * W)] for [A] of shape (N, N), [X] of shape
    (N, i): the propagated dense term, in the words of the contract. *)
Definition propagated (N i : nat) (A X W : tensor) (r k : nat) : num :=
  sum N (fun j => mul (mget A r j)
                      (sum i (fun f => mul (mget X j f) (mget W f k)))).

(** [A * (X * W) [+ b]] for the parameters that [g] holds in [st]. *)
Definition gc_output (st : state) (g : GraphConvolution.t) (N i o : nat)
    (X A : tensor) : tensor :=
  let W := param st (GraphConvolution.weight g) in
  match GraphConvolution.bias g with
  | Some bl => mtab N o (fun r k =>
                 add (propagated N i A X W r k) (vget (param st bl) k))
  | None => mtab N o (propagated N i A X W)
  end.

(** Entry (r, k) of [X * W^T] for [X] of shape (N, i): the affine part of a
    linear layer. *)
Definition projected (i : nat) (X W : tensor) (r k : nat) : num :=
  sum i (fun f => mul (mget X r f) (mget W k f)).

(** [X * W^T + b] for the parameters that [l] holds in [st]. *)
Definition linear_output (st : state) (l : Linear.t) (N i o : nat)
    (X : tensor) : tensor :=
  mtab N o (fun r k =>
    add (projected i X (param st (Linear.weight l)) r k)
        (vget (param st (Linear.bias l)) k)).


Definition discriminator_output (st : state) (d : Discriminator.t)
    (N nin nout : nat) (X : tensor) : tensor :=
  linear_output st (Discriminator.lr2 d) N (nin / 2) nout
    (Torch.relu
       (linear_output st (Discriminator.lr1 d) N nin (nin / 2)
          (Torch.relu X))).

(** What [GraphConvolution.reset_parameters] leaves in a layer built with
    sizes (i, o) when the generator is [g]: the bound, the sample that the
    [k]-th draw from [g] yields, and the two parameter tensors. *)
Definition stdv (out_features : Z) : num :=
  div one (root (of_int out_features)).

Definition drawn (g : generator) (lo hi : num) (k : nat) : num :=
  Torch.uniform_sample lo hi (stream g (offset g + k)).

Definition init_weight (g : generator) (i o : Z) : tensor :=
  mtab (Z.to_nat i) (Z.to_nat o) (fun r c =>
    drawn g (neg (stdv o)) (stdv o) (r * Z.to_nat o + c)).

Definition init_bias (g : generator) (i o : Z) : tensor :=
  vtab (Z.to_nat o) (fun k =>
    drawn g (neg (stdv o)) (stdv o) (Z.to_nat i * Z.to_nat o + k)).

(** The store [st'] keeps every parameter of [st] and has [k] more. *)
Definition extends (st st' : state) (k : nat) : Prop :=
  exists more, params st' = params st ++ more /\ length more = k.

(** The module objects the constructors return when the store holds
    [base] parameters: each parameter gets the next free location. *)
Definition gc_at (base : nat) (i o : Z) (b : bool) : GraphConvolution.t :=
  {| GraphConvolution.in_features := i;
     GraphConvolution.out_features := o;
     GraphConvolution.weight := base;
     GraphConvolution.bias := if b then Some (S base) else None |}.

Definition linear_at (base : nat) (i o : Z) : Linear.t :=
  {| Linear.in_features := i; Linear.out_features := o;
     Linear.weight := base; Linear.bias := S base |}.

Definition encoder_at (base : nat) (nfeat nhid : Z) (p : num) : Encoder.t :=
  {| Encoder.gc1 := gc_at base nfeat nhid true;
     Encoder.gc2 := gc_at (base + 2) nhid nhid true;
     Encoder.dropout := p; Encoder.training := true |}.

Definition discriminator_at (base : nat) (nin nout : Z) (p : num)
  : Discriminator.t :=
  {| Discriminator.lr1 := linear_at base nin (nin / 2)%Z;
     Discriminator.lr2 := linear_at (base + 2) (nin / 2)%Z nout;
     Discriminator.dropout := p; Discriminator.training := true |}.

Definition multitask_at (base : nat) (nfeat nhid nout : Z) (p : num)
  : MultiTask.t :=
  {| MultiTask.encoder := encoder_at base nfeat nhid p;
     MultiTask.dis_neighbor := discriminator_at (base + 4) nhid nout p;
     MultiTask.dis_anomlay := discriminator_at (base + 8) nhid 2 p |}.

Definition singletask_at (base : nat) (nfeat nhid nout : Z) (p : num)
  : SingleTask.t :=
  {| SingleTask.encoder := encoder_at base nfeat nhid p;
     SingleTask.discriminator := discriminator_at (base + 4) nhid nout p |}.

(** Pipelines, as the component contracts write them: a list of stages
    applied from left to right. *)
Inductive stage : Type :=
| SDropout (p : num) (training : bool)
| SGraphConvolution (g : GraphConvolution.t)
| SLinear (l : Linear.t)
| SReLU.

Definition run_stage (st : stage) (x adj : tensor) : M tensor :=
  match st with
  | SDropout p training => Torch.dropout x p training
  | SGraphConvolution g => GraphConvolution.forward g x adj
  | SLinear l => Linear.forward l x
  | SReLU => ret (Torch.relu x)
  end.

Fixpoint run_pipeline (stages : list stage) (x adj : tensor) : M tensor :=
  match stages with
  | [] => ret x
  | st :: rest => y <- run_stage st x adj ;; run_pipeline rest y adj
  end.


(** The permutation matrix of [sigma], as a tensor. *)
Definition perm_mx (sigma : list nat) : tensor :=
  mtab (length sigma) (length sigma)
       (fun i j => if j =? nth i sigma 0 then one else zero).




(** Two runs agree for a caller: same value or same exception. *)
Definition same_outcome {A} (r1 r2 : result (A * state)) : Prop :=
  outcome r1 = outcome r2.

(** [m] may advance the generator but writes no parameter. *)
Definition keeps_params {A} (m : M A) : Prop :=
  forall s a s', m s = Ok (a, s') -> params s' = params s.

(** Two runs agree: same exception, or same value and same parameters
    afterwards.  [m] is blind to the generator when runs from states with
    the same parameters agree. *)
Definition agree {A} (r1 r2 : result (A * state)) : Prop :=
  match r1, r2 with
  | Ok (a1, s1), Ok (a2, s2) => a1 = a2 /\ params s1 = params s2
  | Raise e1, Raise e2 => e1 = e2
  | _, _ => False
  end.

Definition generator_blind {A} (m : M A) : Prop :=
  forall s1 s2, params s1 = params s2 -> agree (m s1) (m s2).

(** A fresh process: no parameter allocated yet, a generator whose draws
    are all 0. *)
Definition fresh_state : state :=
  {| params := []; gen := {| stream := fun _ => zero; offset := 0 |} |}.

End Vocabulary.

(** ** A small model to run

    A multi-task model with nfeat = 2, nhid = 2, nout = 3 over the
    integers, with hand-picked parameter values, laid out as the
    constructor lays them out from an empty store. *)

Definition demo_params : list (@tensor Zscalar) :=
  [ @Mat Zscalar 2 2 [[1; -1]; [2; 0]];  @Vec Zscalar 2 [0; 1];
    @Mat Zscalar 2 2 [[1; 1]; [-1; 2]];  @Vec Zscalar 2 [-3; 1];
    @Mat Zscalar 1 2 [[2; -1]];          @Vec Zscalar 1 [1];
    @Mat Zscalar 3 1 [[1]; [2]; [-1]];   @Vec Zscalar 3 [0; 1; 2];
    @Mat Zscalar 1 2 [[2; 1]];           @Vec Zscalar 1 [0];
    @Mat Zscalar 2 1 [[1]; [-1]];        @Vec Zscalar 2 [5; 6] ]%Z.

Definition demo_state : @state Zscalar :=
  {| params := demo_params;
     gen := @Build_generator Zscalar (fun _ => 0%Z) 0 |}.

Definition demo_multitask : MultiTask.t :=
  @multitask_at Zscalar 0 2 2 3 0%Z.

Definition demo_singletask : SingleTask.t :=
  @singletask_at Zscalar 0 2 2 3 0%Z.

(** Three nodes on a path 0 - 1 - 2 with self loops, and their features. *)
Definition demo_X : @tensor Zscalar :=
  @Mat Zscalar 3 2 [[1; 2]; [0; -1]; [2; 3]]%Z.

Definition demo_A : @tensor Zscalar :=
  @Mat Zscalar 3 3 [[1; 1; 0]; [1; 1; 1]; [0; 1; 1]]%Z.

(** The store of a [Discriminator(1, 2, p)] whose lr2 bias has been
    trained to (7, -5). *)
Definition degenerate_state : @state Zscalar :=
  {| params := [@Mat Zscalar 0 1 []; @Vec Zscalar 0 [];
                @Mat Zscalar 2 0 [[]; []]; @Vec Zscalar 2 [7; -5]%Z];
     gen := @Build_generator Zscalar (fun _ => 0%Z) 0 |}.

(** ** Vocabulary for the further properties *)

Section MoreVocabulary.
Context {Sc : Scalar}.

(** [m] leaves the whole state, generator included, as it found it. *)
Definition keeps_state {A} (m : M A) : Prop :=
  forall s a s', m s = Ok (a, s') -> s' = s.

(** Two states hold the same tensors at the locations [locs] (and, when
    [with_gen] is set, have the same generator); [m] reads only [locs]
    when runs from two such states raise the same exception or return the
    same value, with the parameters untouched (and the generators still
    equal). *)
Definition agree_on (with_gen : bool) (locs : list loc) (s1 s2 : state)
  : Prop :=
  (with_gen = true -> gen s1 = gen s2) /\
  forall l, In l locs -> nth_error (params s1) l = nth_error (params s2) l.

Definition reads_only (with_gen : bool) (locs : list loc) {A} (m : M A)
  : Prop :=
  forall s1 s2, agree_on with_gen locs s1 s2 ->
    match m s1, m s2 with
    | Ok (a1, t1), Ok (a2, t2) =>
        a1 = a2 /\ (with_gen = true -> gen t1 = gen t2) /\
        params t1 = params s1 /\ params t2 = params s2
    | Raise e1, Raise e2 => e1 = e2
    | _, _ => False
    end.

(** [A] is the N x N identity. *)
Definition identity_matrix (N : nat) (A : tensor) : Prop :=
  shape A = [N; N] /\
  forall i j, i < N -> j < N -> mget A i j = if j =? i then one else zero.

(** Entry (r, k) of [X * W] for [X] of shape (N, i). *)
Definition dense (i : nat) (X W : tensor) (r k : nat) : num :=
  sum i (fun f => mul (mget X r f) (mget W f k)).

(** What a layer returns for an operator [A] of shape (M, N): M rows. *)
Definition gc_output_rect (st : state) (g : GraphConvolution.t)
    (M N i o : nat) (X A : tensor) : tensor :=
  let W := param st (GraphConvolution.weight g) in
  match GraphConvolution.bias g with
  | Some bl => mtab M o (fun r k =>
                 add (propagated N i A X W r k) (vget (param st bl) k))
  | None => mtab M o (propagated N i A X W)
  end.

(** The SingleTask model made of the encoder and the neighbor head of a
    MultiTask model. *)
Definition single_of_multi (m : MultiTask.t) : SingleTask.t :=
  {| SingleTask.encoder := MultiTask.encoder m;
     SingleTask.discriminator := MultiTask.dis_neighbor m |}.

End MoreVocabulary.

(** [c] occurs in [s]. *)
Fixpoint mem_char (c : Ascii.ascii) (s : String.string) : bool :=
  match s with
  | String.EmptyString => false
  | String.String a r => Ascii.eqb a c || mem_char c r
  end.

(** The demo store after an optimizer step on the anomaly head only, and
    after one on the neighbor head only. *)
Definition demo_state_anomaly_trained : @state Zscalar :=
  {| params :=
       [ @Mat Zscalar 2 2 [[1; -1]; [2; 0]];  @Vec Zscalar 2 [0; 1];
         @Mat Zscalar 2 2 [[1; 1]; [-1; 2]];  @Vec Zscalar 2 [-3; 1];
         @Mat Zscalar 1 2 [[2; -1]];          @Vec Zscalar 1 [1];
         @Mat Zscalar 3 1 [[1]; [2]; [-1]];   @Vec Zscalar 3 [0; 1; 2];
         @Mat Zscalar 1 2 [[0; 3]];           @Vec Zscalar 1 [-40];
         @Mat Zscalar 2 1 [[4]; [1]];         @Vec Zscalar 2 [0; 9] ]%Z;
     gen := @Build_generator Zscalar (fun _ => 0%Z) 0 |}.

Definition demo_state_neighbor_trained : @state Zscalar :=
  {| params :=
       [ @Mat Zscalar 2 2 [[1; -1]; [2; 0]];  @Vec Zscalar 2 [0; 1];
         @Mat Zscalar 2 2 [[1; 1]; [-1; 2]];  @Vec Zscalar 2 [-3; 1];
         @Mat Zscalar 1 2 [[-1; 1]];          @Vec Zscalar 1 [2];
         @Mat Zscalar 3 1 [[3]; [0]; [1]];    @Vec Zscalar 3 [1; 1; 1];
         @Mat Zscalar 1 2 [[2; 1]];           @Vec Zscalar 1 [0];
         @Mat Zscalar 2 1 [[1]; [-1]];        @Vec Zscalar 2 [5; 6] ]%Z;
     gen := @Build_generator Zscalar (fun k => Z.of_nat k) 3 |}.

(** The 3 x 3 identity and a 2 x 3 operator. *)
Definition demo_I : @tensor Zscalar :=
  @Mat Zscalar 3 3 [[1; 0; 0]; [0; 1; 0]; [0; 0; 1]]%Z.

Definition demo_A_rect : @tensor Zscalar :=
  @Mat Zscalar 2 3 [[1; 1; 0]; [0; 1; 1]]%Z.

(** ** A model in binary32 arithmetic

    The store of an [Encoder(1, 1, 0)] whose parameters are W1 = (0),
    b1 = (1), W2 = (1), b2 = (0); three nodes with features 1, 2, 3, and
    the symmetric operator with 2^24 on the diagonal and 1 elsewhere.
    Every entry is a binary32 number. *)





(** * Properties *)

Unset Implicit Arguments.

(** ** Tables, sums and the monad *)

Section Basics.
Context {Sc : Scalar}.

Lemma nth_map_seq {A} (f : nat -> A) (n i : nat) (d : A) :
  i < n -> nth i (map f (seq 0 n)) d = f i.
Proof.
  intros Hi.
  rewrite (nth_indep _ d (f 0)) by (rewrite length_map, length_seq; exact Hi).
  rewrite (map_nth f (seq 0 n) 0 i), seq_nth by exact Hi.
  reflexivity.
Qed.


Lemma mget_mtab (r c : nat) (f : nat -> nat -> num) (i j : nat) :
  i < r -> j < c -> mget (mtab r c f) i j = f i j.
Proof.
  intros Hi Hj. unfold mtab, mget.
  rewrite (nth_map_seq (fun i => map (f i) (seq 0 c))) by exact Hi.
  now apply nth_map_seq.
Qed.

Lemma map_seq_ext {A} (f g : nat -> A) (n : nat) :
  (forall i, i < n -> f i = g i) -> map f (seq 0 n) = map g (seq 0 n).
Proof.
  intros H. apply map_ext_in. intros i Hi. apply in_seq in Hi. apply H. lia.
Qed.

Lemma vtab_ext (n : nat) (f g : nat -> num) :
  (forall i, i < n -> f i = g i) -> vtab n f = vtab n g.
Proof. intros H. unfold vtab. f_equal. now apply map_seq_ext. Qed.

Lemma mtab_ext (r c : nat) (f g : nat -> nat -> num) :
  (forall i j, i < r -> j < c -> f i j = g i j) -> mtab r c f = mtab r c g.
Proof.
  intros H. unfold mtab. f_equal. apply map_seq_ext. intros i Hi.
  apply map_seq_ext. intros j Hj. now apply H.
Qed.

Lemma sum_ext (n : nat) (f g : nat -> num) :
  (forall j, j < n -> f j = g j) -> sum n f = sum n g.
Proof.
  induction n as [|n IH]; intros H; simpl; [reflexivity|].
  rewrite IH by (intros; apply H; lia). rewrite H by lia. reflexivity.
Qed.

Lemma shape_mtab (r c : nat) (f : nat -> nat -> num) :
  shape (mtab r c f) = [r; c].
Proof. reflexivity. Qed.

Lemma shape_Mat (x : tensor) (r c : nat) :
  shape x = [r; c] -> exists d, x = Mat r c d.
Proof.
  destruct x as [n d|r' c' d]; simpl; intros H; inversion H; subst.
  now exists d.
Qed.

Lemma shape_Vec (x : tensor) (n : nat) :
  shape x = [n] -> exists d, x = Vec n d.
Proof.
  destruct x as [n' d|r' c' d]; simpl; intros H; inversion H; subst.
  now exists d.
Qed.

Lemma shape_at_param (st : state) (l : loc) (sh : list nat) :
  shape_at st l = Some sh ->
  nth_error (params st) l = Some (param st l) /\ shape (param st l) = sh.
Proof.
  unfold shape_at, param. intros H.
  destruct (nth_error (params st) l) as [x|] eqn:E; simpl in H; [|discriminate].
  inversion H; subst. rewrite (nth_error_nth _ _ _ E). now split.
Qed.

Lemma data_param (st : state) (l : loc) (sh : list nat) :
  shape_at st l = Some sh -> Torch.data l st = Ok (param st l, st).
Proof.
  intros H. apply shape_at_param in H as [H _]. unfold Torch.data.
  now rewrite H.
Qed.

End Basics.

(** ** Running the primitives on well-shaped operands *)

Section Running.
Context {Sc : Scalar}.

Lemma bidx_lt (c j : nat) : j < c -> Torch.bidx c j = j.
Proof.
  unfold Torch.bidx. intros H. destruct (Nat.eqb_spec c 1); [lia|reflexivity].
Qed.

Lemma bdim_same (c : nat) : Torch.bdim c c = Some c.
Proof. unfold Torch.bdim. now rewrite Nat.eqb_refl. Qed.

Lemma mm_run (n k m : nat) (da db : list (list num)) :
  Torch.mm (Mat n k da) (Mat k m db) =
  Ok (mtab n m (fun i j =>
        sum k (fun l => mul (mget (Mat n k da) i l) (mget (Mat k m db) l j)))).
Proof. unfold Torch.mm. now rewrite Nat.eqb_refl. Qed.

Lemma tadd_bias_run (r c : nat) (f : nat -> nat -> num) (db : list num) :
  Torch.tadd (mtab r c f) (Vec c db) =
  Ok (mtab r c (fun i j => add (f i j) (vget (Vec c db) j))).
Proof.
  unfold Torch.tadd, mtab at 1. rewrite bdim_same. f_equal.
  apply mtab_ext. intros i j Hi Hj. rewrite !bidx_lt by exact Hj.
  fold (mtab r c f). now rewrite mget_mtab.
Qed.

(** The propagated term, computed by [mm] then [spmm]. *)
Lemma propagate_run (N i o : nat) (dX dA dW : list (list num)) :
  rbind (Torch.mm (Mat N i dX) (Mat i o dW))
        (fun support => Torch.spmm (Mat N N dA) support) =
  Ok (mtab N o (propagated N i (Mat N N dA) (Mat N i dX) (Mat i o dW))).
Proof.
  rewrite mm_run. cbn [rbind]. unfold Torch.spmm, mtab at 1.
  rewrite mm_run. f_equal. apply mtab_ext. intros r k Hr Hk.
  unfold propagated. apply sum_ext. intros j Hj. f_equal.
  match goal with |- mget (Mat N o ?d) j k = _ =>
    change (Mat N o d) with
      (mtab N o (fun i0 j0 => sum i (fun l =>
         mul (mget (Mat N i dX) i0 l) (mget (Mat i o dW) l j0)))) end.
  now rewrite mget_mtab.
Qed.

Lemma gc_forward_run (st : state) (g : GraphConvolution.t) (N i o : nat)
    (X A : tensor) :
  gc_wf st g i o -> shape X = [N; i] -> shape A = [N; N] ->
  GraphConvolution.forward g X A st = Ok (gc_output st g N i o X A, st).
Proof.
  intros [Hw Hb] HX HA.
  destruct (shape_Mat _ _ _ HX) as [dX ->].
  destruct (shape_Mat _ _ _ HA) as [dA ->].
  unfold GraphConvolution.forward, gc_output, bind.
  rewrite (data_param _ _ _ Hw).
  destruct (shape_at_param _ _ _ Hw) as [_ HW].
  destruct (shape_Mat _ _ _ HW) as [dW EW]. rewrite EW.
  pose proof (propagate_run N i o dX dA dW) as HP.
  unfold lift.
  destruct (Torch.mm (Mat N i dX) (Mat i o dW)) as [support|e];
    cbn [rbind] in HP; [|discriminate].
  rewrite HP.
  destruct (GraphConvolution.bias g) as [bl|]; [|reflexivity].
  rewrite (data_param _ _ _ Hb).
  destruct (shape_at_param _ _ _ Hb) as [_ HB].
  destruct (shape_Vec _ _ HB) as [db EB]. rewrite EB.
  now rewrite tadd_bias_run.
Qed.

End Running.

(** ** Running the constructors *)

Section Constructors.
Context {Sc : Scalar}.
Hypothesis IL : InitLaws Sc.

Lemma nth_error_at_length {A} (l r : list A) (x : A) :
  nth_error (l ++ x :: r) (length l) = Some x.
Proof. rewrite nth_error_app2 by lia. now rewrite Nat.sub_diag. Qed.

Lemma update_at_length {A} (l r : list A) (x v : A) :
  Torch.update (l ++ x :: r) (length l) v = l ++ v :: r.
Proof. induction l as [|a l IH]; simpl; [reflexivity|now rewrite IH]. Qed.

Lemma uniform_run (s : state) (l : loc) (x : tensor) (lo hi : num) :
  nth_error (params s) l = Some x -> ltb hi lo = false ->
  Torch.uniform_ l lo hi s =
  Ok (tt, {| params := Torch.update (params s) l
               (Torch.tmapi (fun k _ => drawn (gen s) lo hi k) x);
             gen := Torch.advance (gen s) (Torch.numel x) |}).
Proof. intros H1 H2. unfold Torch.uniform_. now rewrite H2, H1. Qed.

Lemma FloatTensor2_run (r c : Z) (s : state) :
  (0 <= r)%Z -> (0 <= c)%Z ->
  Torch.FloatTensor2 r c s =
  Ok (mtab (Z.to_nat r) (Z.to_nat c) (fun _ _ => zero), s).
Proof.
  intros Hr Hc. unfold Torch.FloatTensor2.
  destruct (Z.ltb_spec r 0); [lia|]. destruct (Z.ltb_spec c 0); [lia|].
  reflexivity.
Qed.

Lemma FloatTensor1_run (n : Z) (s : state) :
  (0 <= n)%Z ->
  Torch.FloatTensor1 n s = Ok (vtab (Z.to_nat n) (fun _ => zero), s).
Proof.
  intros Hn. unfold Torch.FloatTensor1.
  destruct (Z.ltb_spec n 0); [lia|]. reflexivity.
Qed.

Lemma pydiv_run (n : Z) (s : state) :
  (0 < n)%Z -> Torch.pydiv one (root (of_int n)) s = Ok (stdv n, s).
Proof.
  intros Hn. unfold Torch.pydiv. now rewrite (root_nonzero IL Hn).
Qed.

Lemma fill_vtab (h : nat -> num) (n : nat) (f : nat -> num) :
  Torch.tmapi (fun k _ => h k) (vtab n f) = vtab n h.
Proof. reflexivity. Qed.

Lemma fill_mtab (h : nat -> num) (r c : nat) (f : nat -> nat -> num) :
  Torch.tmapi (fun k _ => h k) (mtab r c f) =
  mtab r c (fun i j => h (i * c + j)).
Proof. reflexivity. Qed.

Lemma uniform_run_at (ps r : list tensor) (x : tensor) (g : generator)
    (lo hi : num) :
  ltb hi lo = false ->
  Torch.uniform_ (length ps) lo hi {| params := ps ++ x :: r; gen := g |} =
  Ok (tt, {| params := ps ++ Torch.tmapi (fun k _ => drawn g lo hi k) x :: r;
             gen := Torch.advance g (Torch.numel x) |}).
Proof.
  intros H. rewrite (uniform_run _ _ x) by
    (try exact H; cbn [params]; apply nth_error_at_length).
  cbn [params gen]. now rewrite update_at_length.
Qed.

Lemma uniform_run_next (ps r : list tensor) (w x : tensor) (g : generator)
    (lo hi : num) :
  ltb hi lo = false ->
  Torch.uniform_ (S (length ps)) lo hi
    {| params := ps ++ w :: x :: r; gen := g |} =
  Ok (tt, {| params :=
               ps ++ w :: Torch.tmapi (fun k _ => drawn g lo hi k) x :: r;
             gen := Torch.advance g (Torch.numel x) |}).
Proof.
  intros H.
  replace (ps ++ w :: x :: r) with ((ps ++ [w]) ++ x :: r)
    by now rewrite <- app_assoc.
  replace (S (length ps)) with (length (ps ++ [w]))
    by (rewrite length_app; simpl; lia).
  rewrite uniform_run_at by exact H. now rewrite <- app_assoc.
Qed.

(** The state in which [GraphConvolution.init i o bias] ends. *)
Lemma gc_init_run (i o : Z) (b : bool) (s : state) :
  (0 <= i)%Z -> (0 < o)%Z ->
  GraphConvolution.init i o b s =
  Ok ({| GraphConvolution.in_features := i;
         GraphConvolution.out_features := o;
         GraphConvolution.weight := length (params s);
         GraphConvolution.bias :=
           if b then Some (S (length (params s))) else None |},
      {| params := params s ++
           init_weight (gen s) i o ::
           (if b then [init_bias (gen s) i o] else []);
         gen := Torch.advance (gen s)
                  (Z.to_nat i * Z.to_nat o + if b then Z.to_nat o else 0) |}).
Proof.
  intros Hi Ho.
  unfold GraphConvolution.init, bind.
  rewrite FloatTensor2_run by lia. unfold Torch.new_Parameter at 1.
  assert (Hsz : Torch.size (mtab (Z.to_nat i) (Z.to_nat o) (fun _ _ => zero)) 1
                = Ok o).
  { unfold Torch.size. cbn. now rewrite Z2Nat.id by lia. }
  destruct b.
  - rewrite FloatTensor1_run by lia. unfold Torch.new_Parameter.
    cbn [params gen]. unfold ret at 1.
    unfold GraphConvolution.reset_parameters, bind.
    cbn [GraphConvolution.weight GraphConvolution.bias].
    unfold Torch.data. cbn [params].
    rewrite length_app, Nat.add_1_r.
    rewrite <- app_assoc. cbn [app].
    rewrite nth_error_at_length. rewrite Hsz. unfold lift.
    rewrite pydiv_run by exact Ho.
    rewrite uniform_run_at by apply (bound_ordered IL Ho).
    rewrite uniform_run_next by apply (bound_ordered IL Ho).
    rewrite fill_mtab, fill_vtab.
    unfold ret. do 3 f_equal.
    + do 3 f_equal.
      unfold init_bias. apply vtab_ext.
      intros k Hk. unfold drawn, Torch.advance. cbn [stream offset].
      unfold Torch.numel, mtab. now rewrite Nat.add_assoc.
    + unfold Torch.advance. cbn [stream offset]. f_equal.
      unfold Torch.numel, mtab, vtab. lia.
  - unfold ret at 1.
    unfold GraphConvolution.reset_parameters, bind.
    cbn [GraphConvolution.weight GraphConvolution.bias].
    unfold Torch.data. cbn [params gen].
    rewrite nth_error_at_length. rewrite Hsz. unfold lift.
    rewrite pydiv_run by exact Ho.
    rewrite uniform_run_at by apply (bound_ordered IL Ho).
    rewrite fill_mtab.
    unfold ret. do 3 f_equal.
    unfold Torch.advance. cbn [stream offset]. f_equal.
    unfold Torch.numel, mtab. lia.
Qed.

Lemma shape_tmapi (f : nat -> num -> num) (x : tensor) :
  shape (Torch.tmapi f x) = shape x.
Proof. now destruct x. Qed.

Lemma linear_init_run (i o : Z) (s : state) :
  (0 <= i)%Z -> (0 <= o)%Z ->
  exists w b g,
    Linear.init i o s =
    Ok (linear_at (length (params s)) i o,
        {| params := params s ++ [w; b]; gen := g |}) /\
    shape w = [Z.to_nat o; Z.to_nat i] /\ shape b = [Z.to_nat o].
Proof.
  intros Hi Ho.
  unfold Linear.init, bind.
  rewrite FloatTensor2_run by lia. unfold Torch.new_Parameter at 1.
  rewrite FloatTensor1_run by lia. unfold Torch.new_Parameter.
  cbn [params gen]. rewrite length_app, Nat.add_1_r.
  rewrite <- app_assoc. cbn [app].
  unfold Linear.reset_parameters, bind.
  cbn [Linear.in_features Linear.out_features Linear.weight Linear.bias].
  destruct (Z.ltb_spec 0 i) as [Hpos|Hnpos].
  - replace (i =? 0)%Z with false by (symmetry; apply Z.eqb_neq; lia).
    cbn [orb].
    destruct (Z.eqb_spec o 0) as [Ho0|Ho0].
    + unfold ret at 1. rewrite pydiv_run by exact Hpos.
      rewrite uniform_run_next by apply (bound_ordered IL Hpos).
      do 3 eexists. split; [reflexivity|]. split; [reflexivity|].
      now rewrite shape_tmapi.
    + rewrite pydiv_run by exact Hpos.
      rewrite uniform_run_at by apply (bound_ordered IL Hpos).
      rewrite pydiv_run by exact Hpos.
      rewrite uniform_run_next by apply (bound_ordered IL Hpos).
      do 3 eexists. split; [reflexivity|].
      split; now rewrite shape_tmapi.
  - replace (i =? 0)%Z with true by (symmetry; apply Z.eqb_eq; lia).
    cbn [orb]. unfold ret at 1 2.
    rewrite uniform_run_next by apply (zero_ordered IL).
    do 3 eexists. split; [reflexivity|]. split; [reflexivity|].
    now rewrite shape_tmapi.
Qed.

Lemma extends_trans (s1 s2 s3 : state) (a b : nat) :
  extends s1 s2 a -> extends s2 s3 b -> extends s1 s3 (a + b).
Proof.
  intros (m1 & E1 & L1) (m2 & E2 & L2). exists (m1 ++ m2). split.
  - now rewrite E2, E1, app_assoc.
  - rewrite length_app. lia.
Qed.

Lemma extends_length (s1 s2 : state) (k : nat) :
  extends s1 s2 k -> length (params s2) = length (params s1) + k.
Proof. intros (m & E & L). rewrite E, length_app. lia. Qed.

Lemma shape_at_extends (s s' : state) (k : nat) (l : loc) (sh : list nat) :
  extends s s' k -> shape_at s l = Some sh -> shape_at s' l = Some sh.
Proof.
  intros (m & E & _). unfold shape_at. rewrite E.
  destruct (nth_error (params s) l) as [x|] eqn:Hx; [|discriminate].
  intros H. rewrite nth_error_app1 by (apply nth_error_Some; congruence).
  now rewrite Hx.
Qed.

Lemma gc_wf_extends (s s' : state) (k : nat) g i o :
  extends s s' k -> gc_wf s g i o -> gc_wf s' g i o.
Proof.
  intros E [Hw Hb]. split; [eapply shape_at_extends; eassumption|].
  destruct (GraphConvolution.bias g);
    [eapply shape_at_extends; eassumption|exact I].
Qed.

Lemma linear_wf_extends (s s' : state) (k : nat) l i o :
  extends s s' k -> linear_wf s l i o -> linear_wf s' l i o.
Proof. intros E [Hw Hb]. split; eapply shape_at_extends; eassumption. Qed.

Lemma encoder_wf_extends (s s' : state) (k : nat) e i o :
  extends s s' k -> encoder_wf s e i o -> encoder_wf s' e i o.
Proof. intros E [H1 H2]. split; eapply gc_wf_extends; eassumption. Qed.

Lemma discriminator_wf_extends (s s' : state) (k : nat) d i o :
  extends s s' k -> discriminator_wf s d i o -> discriminator_wf s' d i o.
Proof. intros E [H1 H2]. split; eapply linear_wf_extends; eassumption. Qed.

Lemma shape_at_here (s : state) (pre post : list tensor) (x : tensor) :
  params s = pre ++ x :: post -> shape_at s (length pre) = Some (shape x).
Proof.
  intros E. unfold shape_at. now rewrite E, nth_error_at_length.
Qed.

Lemma shape_at_next (s : state) (pre post : list tensor) (w x : tensor) :
  params s = pre ++ w :: x :: post ->
  shape_at s (S (length pre)) = Some (shape x).
Proof.
  intros E. unfold shape_at. rewrite E.
  replace (pre ++ w :: x :: post) with ((pre ++ [w]) ++ x :: post)
    by now rewrite <- app_assoc.
  replace (S (length pre)) with (length (pre ++ [w]))
    by (rewrite length_app; simpl; lia).
  now rewrite nth_error_at_length.
Qed.

Lemma gc_init_wf (i o : Z) (b : bool) (s : state) :
  (0 <= i)%Z -> (0 < o)%Z ->
  exists s',
    GraphConvolution.init i o b s = Ok (gc_at (length (params s)) i o b, s') /\
    extends s s' (if b then 2 else 1) /\
    gc_wf s' (gc_at (length (params s)) i o b) (Z.to_nat i) (Z.to_nat o).
Proof.
  intros Hi Ho. eexists. split; [now apply gc_init_run|]. split.
  - eexists. split; [reflexivity|]. now destruct b.
  - split.
    + cbn [gc_at GraphConvolution.weight].
      now erewrite shape_at_here by reflexivity.
    + destruct b; [|exact I]. cbn [gc_at GraphConvolution.bias].
      now erewrite shape_at_next by reflexivity.
Qed.

Lemma linear_init_wf (i o : Z) (s : state) :
  (0 <= i)%Z -> (0 <= o)%Z ->
  exists s',
    Linear.init i o s = Ok (linear_at (length (params s)) i o, s') /\
    extends s s' 2 /\
    linear_wf s' (linear_at (length (params s)) i o) (Z.to_nat i) (Z.to_nat o).
Proof.
  intros Hi Ho.
  destruct (linear_init_run i o s Hi Ho) as (w & b & g & E & Hw & Hb).
  eexists. split; [exact E|]. split.
  - eexists. split; reflexivity.
  - split.
    + cbn [linear_at Linear.weight].
      erewrite shape_at_here by reflexivity. now rewrite Hw.
    + cbn [linear_at Linear.bias].
      erewrite shape_at_next by reflexivity. now rewrite Hb.
Qed.

Lemma encoder_init_wf (nfeat nhid : Z) (p : num) (s : state) :
  (0 <= nfeat)%Z -> (0 < nhid)%Z ->
  exists s',
    Encoder.init nfeat nhid p s =
      Ok (encoder_at (length (params s)) nfeat nhid p, s') /\
    extends s s' 4 /\
    encoder_wf s' (encoder_at (length (params s)) nfeat nhid p)
      (Z.to_nat nfeat) (Z.to_nat nhid).
Proof.
  intros Hf Hh.
  destruct (gc_init_wf nfeat nhid true s) as (s1 & E1 & X1 & W1); try lia.
  destruct (gc_init_wf nhid nhid true s1) as (s2 & E2 & X2 & W2); try lia.
  exists s2. unfold Encoder.init, bind. rewrite E1, E2.
  rewrite (extends_length _ _ _ X1). split; [reflexivity|]. split.
  - apply (extends_trans _ _ _ _ _ X1 X2).
  - split; [eapply gc_wf_extends; eassumption|].
    cbn [encoder_at Encoder.gc2]. now rewrite <- (extends_length _ _ _ X1).
Qed.

Lemma discriminator_init_wf (nin nout : Z) (p : num) (s : state) :
  (0 <= nin)%Z -> (0 <= nout)%Z ->
  exists s',
    Discriminator.init nin nout p s =
      Ok (discriminator_at (length (params s)) nin nout p, s') /\
    extends s s' 4 /\
    discriminator_wf s' (discriminator_at (length (params s)) nin nout p)
      (Z.to_nat nin) (Z.to_nat nout).
Proof.
  intros Hi Ho.
  assert (Hh : (0 <= nin / 2)%Z) by (apply Z.div_pos; lia).
  destruct (linear_init_wf nin (nin / 2)%Z s) as (s1 & E1 & X1 & W1);
    try lia.
  destruct (linear_init_wf (nin / 2)%Z nout s1) as (s2 & E2 & X2 & W2);
    try lia.
  exists s2. unfold Discriminator.init, bind. rewrite E1, E2.
  rewrite (extends_length _ _ _ X1). split; [reflexivity|]. split.
  - apply (extends_trans _ _ _ _ _ X1 X2).
  - assert (D : Z.to_nat (nin / 2) = Z.to_nat nin / 2)
      by (rewrite Z2Nat.inj_div by lia; reflexivity).
    unfold discriminator_wf. rewrite <- D.
    split; [eapply linear_wf_extends; eassumption|].
    cbn [discriminator_at Discriminator.lr2].
    now rewrite <- (extends_length _ _ _ X1).
Qed.

Lemma multitask_init_wf (nfeat nhid nout : Z) (p : num) (s : state) :
  (0 <= nfeat)%Z -> (0 < nhid)%Z -> (0 <= nout)%Z ->
  exists s',
    MultiTask.init nfeat nhid nout p s =
      Ok (multitask_at (length (params s)) nfeat nhid nout p, s') /\
    extends s s' 12 /\
    multitask_wf s' (multitask_at (length (params s)) nfeat nhid nout p)
      (Z.to_nat nfeat) (Z.to_nat nhid) (Z.to_nat nout).
Proof.
  intros Hf Hh Ho.
  destruct (encoder_init_wf nfeat nhid p s) as (s1 & E1 & X1 & W1); try lia.
  destruct (discriminator_init_wf nhid nout p s1) as (s2 & E2 & X2 & W2);
    try lia.
  destruct (discriminator_init_wf nhid 2 p s2) as (s3 & E3 & X3 & W3);
    try lia.
  pose proof (extends_trans _ _ _ _ _ X1 X2) as X12. cbn in X12.
  exists s3. unfold MultiTask.init, bind. rewrite E1, E2, E3.
  rewrite (extends_length _ _ _ X12), (extends_length _ _ _ X1).
  split; [reflexivity|]. split; [apply (extends_trans _ _ _ _ _ X12 X3)|].
  split; [|split].
  - eapply encoder_wf_extends; [exact X3|].
    eapply encoder_wf_extends; [exact X2|exact W1].
  - cbn [multitask_at MultiTask.dis_neighbor].
    rewrite <- (extends_length _ _ _ X1).
    eapply discriminator_wf_extends; [exact X3|exact W2].
  - cbn [multitask_at MultiTask.dis_anomlay].
    rewrite <- (extends_length _ _ _ X12). exact W3.
Qed.

Lemma singletask_init_wf (nfeat nhid nout : Z) (p : num) (s : state) :
  (0 <= nfeat)%Z -> (0 < nhid)%Z -> (0 <= nout)%Z ->
  exists s',
    SingleTask.init nfeat nhid nout p s =
      Ok (singletask_at (length (params s)) nfeat nhid nout p, s') /\
    extends s s' 8 /\
    singletask_wf s' (singletask_at (length (params s)) nfeat nhid nout p)
      (Z.to_nat nfeat) (Z.to_nat nhid) (Z.to_nat nout).
Proof.
  intros Hf Hh Ho.
  destruct (encoder_init_wf nfeat nhid p s) as (s1 & E1 & X1 & W1); try lia.
  destruct (discriminator_init_wf nhid nout p s1) as (s2 & E2 & X2 & W2);
    try lia.
  exists s2. unfold SingleTask.init, bind. rewrite E1, E2.
  rewrite (extends_length _ _ _ X1).
  split; [reflexivity|]. split; [apply (extends_trans _ _ _ _ _ X1 X2)|].
  split.
  - eapply encoder_wf_extends; eassumption.
  - cbn [singletask_at SingleTask.discriminator].
    rewrite <- (extends_length _ _ _ X1). exact W2.
Qed.

End Constructors.

(** ** Running the forward passes *)

Section Forward.
Context {Sc : Scalar}.

Lemma shape_relu (x : tensor) : shape (Torch.relu x) = shape x.
Proof. now destruct x. Qed.

Lemma shape_gc_output st g N i o X A : shape (gc_output st g N i o X A) = [N; o].
Proof. unfold gc_output. now destruct (GraphConvolution.bias g). Qed.

Lemma valid_p_checks (p : num) :
  valid_p p = true -> ltb p zero || ltb one p = false.
Proof. unfold valid_p. now destruct (ltb p zero || ltb one p). Qed.

Lemma dropout_eval (x : tensor) (p : num) (s : state) :
  valid_p p = true -> Torch.dropout x p false s = Ok (x, s).
Proof.
  intros H. unfold Torch.dropout. now rewrite (valid_p_checks _ H).
Qed.

Lemma dropout_invalid (x : tensor) (p : num) (tr : bool) (s : state) :
  valid_p p = false -> Torch.dropout x p tr s = Raise ValueError.
Proof.
  unfold valid_p, Torch.dropout. intros H.
  now destruct (ltb p zero || ltb one p).
Qed.

Lemma dropout_run (x : tensor) (p : num) (tr : bool) (s : state) :
  valid_p p = true ->
  exists y s', Torch.dropout x p tr s = Ok (y, s') /\
               shape y = shape x /\ params s' = params s.
Proof.
  intros H. unfold Torch.dropout. rewrite (valid_p_checks _ H).
  destruct (negb tr || Torch.eqb p zero || (Torch.numel x =? 0)).
  - now exists x, s.
  - destruct (Torch.eqb p one).
    + eexists _, s. split; [reflexivity|]. split; [|reflexivity].
      apply shape_tmapi.
    + eexists _, _. split; [reflexivity|]. split; [|reflexivity].
      apply shape_tmapi.
Qed.

Lemma shape_at_params (s s' : state) (l : loc) :
  params s' = params s -> shape_at s' l = shape_at s l.
Proof. unfold shape_at. now intros ->. Qed.

Lemma param_params (s s' : state) (l : loc) :
  params s' = params s -> param s' l = param s l.
Proof. unfold param. now intros ->. Qed.

Lemma gc_wf_params (s s' : state) g i o :
  params s' = params s -> gc_wf s g i o -> gc_wf s' g i o.
Proof.
  intros E [Hw Hb]. split; [now rewrite (shape_at_params _ _ _ E)|].
  destruct (GraphConvolution.bias g);
    [now rewrite (shape_at_params _ _ _ E)|exact I].
Qed.

Lemma linear_wf_params (s s' : state) l i o :
  params s' = params s -> linear_wf s l i o -> linear_wf s' l i o.
Proof. intros E [Hw Hb]. split; now rewrite (shape_at_params _ _ _ E). Qed.

Lemma linear_forward_run (st : state) (l : Linear.t) (N i o : nat)
    (X : tensor) :
  linear_wf st l i o -> shape X = [N; i] ->
  Linear.forward l X st = Ok (linear_output st l N i o X, st).
Proof.
  intros [Hw Hb] HX. destruct (shape_Mat _ _ _ HX) as [dX ->].
  unfold Linear.forward, linear_output, bind.
  rewrite (data_param _ _ _ Hw), (data_param _ _ _ Hb).
  destruct (shape_at_param _ _ _ Hw) as [_ HW].
  destruct (shape_at_param _ _ _ Hb) as [_ HB].
  destruct (shape_Mat _ _ _ HW) as [dW EW].
  destruct (shape_Vec _ _ HB) as [db EB].
  rewrite EW, EB. unfold lift, Torch.linear, Torch.t, mtab at 1.
  rewrite mm_run. cbn [rbind].
  fold (mtab i o (fun a b => mget (Mat o i dW) b a)).
  unfold mtab at 1. cbv iota.
  rewrite Nat.eqb_refl. cbn [orb]. rewrite tadd_bias_run. do 2 f_equal.
  apply mtab_ext. intros r k Hr Hk. f_equal. unfold projected.
  apply sum_ext. intros f Hf. now rewrite mget_mtab.
Qed.

Lemma shape_linear_output st l N i o X : shape (linear_output st l N i o X) = [N; o].
Proof. reflexivity. Qed.


(** In any mode the encoder returns, for well-shaped inputs, a tensor of
    shape (N, nhid), and the store is the one it started from. *)
Lemma encoder_forward_run (st : state) (e : Encoder.t) (N nfeat nhid : nat)
    (X A : tensor) :
  encoder_wf st e nfeat nhid -> valid_p (Encoder.dropout e) = true ->
  shape X = [N; nfeat] -> shape A = [N; N] ->
  exists H st', Encoder.forward e X A st = Ok (H, st') /\
                shape H = [N; nhid] /\ params st' = params st.
Proof.
  intros [W1 W2] Hp HX HA. unfold Encoder.forward, bind.
  destruct (dropout_run X _ (Encoder.training e) st Hp)
    as (x1 & s1 & -> & Hx1 & Hs1).
  rewrite (gc_forward_run s1 _ N nfeat nhid);
    [| now apply (gc_wf_params _ _ _ _ _ Hs1) | congruence | exact HA].
  unfold ret at 1.
  destruct (dropout_run
              (Torch.relu (gc_output s1 (Encoder.gc1 e) N nfeat nhid x1 A))
              _ (Encoder.training e) s1 Hp) as (x2 & s2 & -> & Hx2 & Hs2).
  rewrite (gc_forward_run s2 _ N nhid nhid);
    [| apply (gc_wf_params _ _ _ _ _ Hs2), (gc_wf_params _ _ _ _ _ Hs1), W2
     | now rewrite Hx2, shape_relu, shape_gc_output | exact HA].
  eexists _, _. split; [reflexivity|]. split; [apply shape_gc_output|].
  congruence.
Qed.

Lemma discriminator_forward_eval (st : state) (d : Discriminator.t)
    (N nin nout : nat) (X : tensor) :
  discriminator_wf st d nin nout -> Discriminator.training d = false ->
  valid_p (Discriminator.dropout d) = true ->
  shape X = [N; nin] ->
  Discriminator.forward d X st =
  Ok (discriminator_output st d N nin nout X, st).
Proof.
  intros [W1 W2] Htr Hp HX. unfold Discriminator.forward, bind.
  rewrite Htr, (dropout_eval _ _ _ Hp).
  rewrite (linear_forward_run _ _ N _ _ _ W1)
    by (rewrite shape_relu; exact HX).
  unfold ret at 1. rewrite (dropout_eval _ _ _ Hp).
  rewrite (linear_forward_run _ _ N _ _ _ W2); [reflexivity|].
  now rewrite shape_relu.
Qed.

Lemma discriminator_forward_run (st : state) (d : Discriminator.t)
    (N nin nout : nat) (X : tensor) :
  discriminator_wf st d nin nout ->
  valid_p (Discriminator.dropout d) = true ->
  shape X = [N; nin] ->
  exists Y st', Discriminator.forward d X st = Ok (Y, st') /\
                shape Y = [N; nout] /\ params st' = params st.
Proof.
  intros [W1 W2] Hp HX. unfold Discriminator.forward, bind.
  destruct (dropout_run (Torch.relu X) _ (Discriminator.training d) st Hp)
    as (x1 & s1 & -> & Hx1 & Hs1).
  rewrite (linear_forward_run s1 _ N nin (nin / 2));
    [| now apply (linear_wf_params _ _ _ _ _ Hs1)
     | now rewrite Hx1, shape_relu].
  unfold ret at 1.
  destruct (dropout_run
              (Torch.relu (linear_output s1 (Discriminator.lr1 d) N nin
                             (nin / 2) x1))
              _ (Discriminator.training d) s1 Hp)
    as (x2 & s2 & -> & Hx2 & Hs2).
  rewrite (linear_forward_run s2 _ N (nin / 2) nout);
    [| apply (linear_wf_params _ _ _ _ _ Hs2),
             (linear_wf_params _ _ _ _ _ Hs1), W2
     | now rewrite Hx2, shape_relu].
  eexists _, _. split; [reflexivity|]. split; [reflexivity|]. congruence.
Qed.

End Forward.

(** ** The two instances satisfy the laws *)

Lemma Zscalar_laws : ScalarLaws Zscalar.
Proof.
  split; [exact Z.add_0_l | exact Z.add_0_r | exact Z.add_comm
         | exact Z.add_assoc | exact Z.mul_0_l | exact Z.mul_0_r
         | exact Z.mul_1_l | exact Z.mul_1_r].
Qed.

Lemma Zscalar_init_laws : InitLaws Zscalar.
Proof.
  split.
  - reflexivity.
  - intros n Hn. unfold Torch.eqb. cbn.
    assert (0 < Z.sqrt n)%Z by now apply Z.sqrt_pos.
    destruct (Z.ltb_spec 0 (Z.sqrt n)); [|lia]. now rewrite andb_false_r.
  - intros n Hn. cbn.
    assert (0 < Z.sqrt n)%Z by now apply Z.sqrt_pos.
    assert (0 <= 1 / Z.sqrt n)%Z by (apply Z.div_pos; lia).
    apply Z.ltb_ge. lia.
  - reflexivity.
Qed.

Lemma Rscalar_laws : ScalarLaws Rscalar.
Proof.
  split; [exact Rplus_0_l | exact Rplus_0_r | exact Rplus_comm
         | exact (fun x y z => eq_sym (Rplus_assoc x y z))
         | exact Rmult_0_l | exact Rmult_0_r
         | exact Rmult_1_l | exact Rmult_1_r].
Qed.

Lemma Rscalar_ltb_false (x y : R) : (y <= x)%R -> @ltb Rscalar x y = false.
Proof. intros H. cbn. destruct (Rlt_dec x y); [lra|reflexivity]. Qed.

Lemma Rscalar_ltb_true (x y : R) : (x < y)%R -> @ltb Rscalar x y = true.
Proof. intros H. cbn. destruct (Rlt_dec x y); [reflexivity|lra]. Qed.

Lemma sqrt_IZR_pos (n : Z) : (0 < n)%Z -> (0 < R_sqrt.sqrt (IZR n))%R.
Proof. intros H. apply sqrt_lt_R0. now apply IZR_lt. Qed.

Lemma Rscalar_stdv_pos (n : Z) : (0 < n)%Z -> (0 < @stdv Rscalar n)%R.
Proof.
  intros H. unfold stdv. cbn. apply Rdiv_lt_0_compat; [lra|].
  now apply sqrt_IZR_pos.
Qed.

Lemma Rscalar_init_laws : InitLaws Rscalar.
Proof.
  split.
  - unfold Torch.eqb. cbn [root of_int zero Rscalar]. rewrite sqrt_0.
    now rewrite !Rscalar_ltb_false by lra.
  - intros n Hn. unfold Torch.eqb. cbn [root of_int zero Rscalar].
    rewrite (Rscalar_ltb_true 0 (R_sqrt.sqrt (IZR n)))
      by now apply sqrt_IZR_pos.
    now rewrite andb_false_r.
  - intros n Hn. pose proof (Rscalar_stdv_pos n Hn) as H. unfold stdv in H.
    apply Rscalar_ltb_false. cbn in *. lra.
  - apply Rscalar_ltb_false. cbn. lra.
Qed.

(** ** GraphConvolution.forward *)

Section GraphConvolutionForward.
Context {Sc : Scalar}.
Hypothesis IL : InitLaws Sc.

(** C1.  A layer constructed with sizes (i, o) holds a weight of shape
    (i, o) and, exactly when [bias] was enabled, a bias of shape (o).  For
    every X of shape (N, i) and A of shape (N, N), and whatever values the
    parameters hold by then, [forward] returns the tensor of shape (N, o)
    whose entry (r, k) is [(A * (X * W))(r, k) + b(k)] when the layer was
    built with the bias, and [(A * (X * W))(r, k)], the value of
    [spmm(A, mm(X, W))] itself, when it was built with [bias = False]. *)
Theorem GraphConvolution_forward_spec (i o : Z) (b : bool) (s0 : state) :
  (0 <= i)%Z -> (0 < o)%Z ->
  exists g s1,
    GraphConvolution.init i o b s0 = Ok (g, s1) /\
    gc_wf s1 g (Z.to_nat i) (Z.to_nat o) /\
    if b then
      exists bl, GraphConvolution.bias g = Some bl /\
      forall st N X A,
        gc_wf st g (Z.to_nat i) (Z.to_nat o) ->
        shape X = [N; Z.to_nat i] -> shape A = [N; N] ->
        GraphConvolution.forward g X A st =
        Ok (mtab N (Z.to_nat o) (fun r k =>
              add (propagated N (Z.to_nat i) A X
                     (param st (GraphConvolution.weight g)) r k)
                  (vget (param st bl) k)), st)
    else
      GraphConvolution.bias g = None /\
      forall st N X A,
        gc_wf st g (Z.to_nat i) (Z.to_nat o) ->
        shape X = [N; Z.to_nat i] -> shape A = [N; N] ->
        GraphConvolution.forward g X A st =
        Ok (mtab N (Z.to_nat o)
              (propagated N (Z.to_nat i) A X
                 (param st (GraphConvolution.weight g))), st) /\
        GraphConvolution.forward g X A st =
        lift (rbind (Torch.mm X (param st (GraphConvolution.weight g)))
                    (fun support => Torch.spmm A support)) st.
Proof.
  intros Hi Ho.
  destruct (gc_init_wf IL i o b s0 Hi Ho) as (s1 & E & _ & W).
  exists (gc_at (length (params s0)) i o b), s1.
  split; [exact E|]. split; [exact W|].
  destruct b.
  - exists (S (length (params s0))). split; [reflexivity|].
    intros st N X A Hwf HX HA.
    now rewrite (gc_forward_run _ _ _ _ _ _ _ Hwf HX HA).
  - split; [reflexivity|]. intros st N X A Hwf HX HA.
    rewrite (gc_forward_run _ _ _ _ _ _ _ Hwf HX HA).
    split; [reflexivity|].
    destruct Hwf as [Hw _]. destruct (shape_at_param _ _ _ Hw) as [_ HW].
    destruct (shape_Mat _ _ _ HX) as [dX ->].
    destruct (shape_Mat _ _ _ HA) as [dA ->].
    destruct (shape_Mat _ _ _ HW) as [dW EW].
    unfold gc_output. cbn [gc_at GraphConvolution.bias GraphConvolution.weight] in *.
    rewrite EW, propagate_run. reflexivity.
Qed.

End GraphConvolutionForward.

Lemma GraphConvolution_forward_spec_witness :
  exists g (s1 : @state Zscalar),
    GraphConvolution.init (Sc := Zscalar) 2 1 false fresh_state
      = Ok (g, s1) /\
    gc_wf s1 g 2 1 /\
    GraphConvolution.bias g = None /\
    forall (st : @state Zscalar) N X A,
      gc_wf st g 2 1 -> shape X = [N; 2] -> shape A = [N; N] ->
      GraphConvolution.forward g X A st =
      Ok (mtab N 1 (propagated N 2 A X
                      (param st (GraphConvolution.weight g))), st) /\
      GraphConvolution.forward g X A st =
      lift (rbind (Torch.mm X (param st (GraphConvolution.weight g)))
                  (fun support => Torch.spmm A support)) st.
Proof.
  apply (GraphConvolution_forward_spec Zscalar_init_laws 2 1 false fresh_state);
    lia.
Defined.

(** ** What a forward pass leaves behind *)

Section Frame.
Context {Sc : Scalar}.

Lemma keeps_ret {A} (a : A) : keeps_params (ret a).
Proof. intros s a' s' H. now inversion H. Qed.

Lemma keeps_lift {A} (r : result A) : keeps_params (lift r).
Proof. intros s a s' H. unfold lift in H. destruct r; now inversion H. Qed.

Lemma keeps_bind {A B} (m : M A) (k : A -> M B) :
  keeps_params m -> (forall a, keeps_params (k a)) -> keeps_params (bind m k).
Proof.
  intros Hm Hk s b s' H. unfold bind in H.
  destruct (m s) as [[a s1]|] eqn:E; [|discriminate].
  rewrite (Hk a s1 b s' H). now apply (Hm s a s1).
Qed.

Lemma keeps_data (l : loc) : keeps_params (Torch.data l).
Proof.
  intros s a s' H. unfold Torch.data in H.
  destruct (nth_error (params s) l); now inversion H.
Qed.

Lemma keeps_dropout (x : tensor) (p : num) (tr : bool) :
  keeps_params (Torch.dropout x p tr).
Proof.
  intros s a s' H. unfold Torch.dropout in H.
  destruct (ltb p zero || ltb one p); [discriminate|].
  destruct (negb tr || Torch.eqb p zero || (Torch.numel x =? 0));
    [now inversion H|].
  destruct (Torch.eqb p one); now inversion H.
Qed.

Create HintDb frame.
#[local] Hint Resolve keeps_ret keeps_lift keeps_bind keeps_data
  keeps_dropout : frame.
#[local] Hint Opaque keeps_params : frame.

Lemma keeps_gc_forward (g : GraphConvolution.t) (x adj : tensor) :
  keeps_params (GraphConvolution.forward g x adj).
Proof.
  unfold GraphConvolution.forward.
  destruct (GraphConvolution.bias g); auto 8 with frame.
Qed.

Lemma keeps_linear_forward (l : Linear.t) (x : tensor) :
  keeps_params (Linear.forward l x).
Proof. unfold Linear.forward. auto with frame. Qed.

#[local] Hint Resolve keeps_gc_forward keeps_linear_forward : frame.

Lemma keeps_encoder_forward (e : Encoder.t) (x adj : tensor) :
  keeps_params (Encoder.forward e x adj).
Proof. unfold Encoder.forward. auto 8 with frame. Qed.

Lemma keeps_discriminator_forward (d : Discriminator.t) (x : tensor) :
  keeps_params (Discriminator.forward d x).
Proof. unfold Discriminator.forward. auto 8 with frame. Qed.

#[local] Hint Resolve keeps_encoder_forward keeps_discriminator_forward
  : frame.

Lemma keeps_multitask_forward (m : MultiTask.t) (x adj : tensor) :
  keeps_params (MultiTask.forward m x adj).
Proof. unfold MultiTask.forward. auto 8 with frame. Qed.

Lemma keeps_singletask_forward (m : SingleTask.t) (x adj : tensor) :
  keeps_params (SingleTask.forward m x adj).
Proof. unfold SingleTask.forward. auto 8 with frame. Qed.

End Frame.

(** The demo model in inference mode, checked against a computation by
    hand. *)
Example demo_multitask_run :
  outcome (MultiTask.forward (MultiTask.eval demo_multitask) demo_X demo_A
             demo_state) =
  Ok (@Mat Zscalar 3 2 [[11; 15]; [17; 21]; [14; 18]]%Z,
      @Mat Zscalar 3 3 [[8; 17; -6]; [14; 29; -12]; [11; 23; -9]]%Z,
      @Mat Zscalar 3 2 [[42; -31]; [60; -49]; [51; -40]]%Z).
Proof. vm_compute. reflexivity. Qed.

(** SingleTask returns the embedding and the one head's logits: the first
    two components of what MultiTask returns from the same parameters. *)
Example demo_singletask_run :
  outcome (SingleTask.forward (SingleTask.eval demo_singletask) demo_X demo_A
             demo_state) =
  Ok (@Mat Zscalar 3 2 [[11; 15]; [17; 21]; [14; 18]]%Z,
      @Mat Zscalar 3 3 [[8; 17; -6]; [14; 29; -12]; [11; 23; -9]]%Z).
Proof. vm_compute. reflexivity. Qed.

(** C9.  No forward pass writes a parameter: when [forward] of any of the
    five modules returns, in training or in inference mode, the parameter
    store is the one the call started from (only the generator may have
    advanced). *)
Theorem forward_keeps_parameters {Sc : Scalar} :
  (forall (g : GraphConvolution.t) x adj (s : state) y s',
     GraphConvolution.forward g x adj s = Ok (y, s') ->
     params s' = params s) /\
  (forall (e : Encoder.t) x adj (s : state) y s',
     Encoder.forward e x adj s = Ok (y, s') -> params s' = params s) /\
  (forall (d : Discriminator.t) x (s : state) y s',
     Discriminator.forward d x s = Ok (y, s') -> params s' = params s) /\
  (forall (m : MultiTask.t) x adj (s : state) y s',
     MultiTask.forward m x adj s = Ok (y, s') -> params s' = params s) /\
  (forall (m : SingleTask.t) x adj (s : state) y s',
     SingleTask.forward m x adj s = Ok (y, s') -> params s' = params s).
Proof.
  repeat split; intros.
  - eapply keeps_gc_forward; eassumption.
  - eapply keeps_encoder_forward; eassumption.
  - eapply keeps_discriminator_forward; eassumption.
  - eapply keeps_multitask_forward; eassumption.
  - eapply keeps_singletask_forward; eassumption.
Qed.

Lemma forward_keeps_parameters_witness :
  exists y s',
    MultiTask.forward demo_multitask demo_X demo_A demo_state = Ok (y, s') /\
    params s' = demo_params.
Proof.
  eexists _, _. split; [reflexivity|].
  eapply (proj1 (proj2 (proj2 (proj2 (@forward_keeps_parameters Zscalar))))
            demo_multitask demo_X demo_A demo_state).
  reflexivity.
Defined.

(** ** Encoder.forward *)

Section EncoderForward.
Context {Sc : Scalar}.
Hypothesis IL : InitLaws Sc.

(** Whatever the inputs, a layer whose parameters have the shapes
    (i, o) and (o) returns o columns when it returns. *)
Lemma gc_forward_width (st st' : state) (g : GraphConvolution.t) (i o : nat)
    (x adj y : tensor) :
  gc_wf st g i o ->
  GraphConvolution.forward g x adj st = Ok (y, st') ->
  exists n, shape y = [n; o].
Proof.
  intros [Hw Hb]. unfold GraphConvolution.forward, bind.
  rewrite (data_param _ _ _ Hw).
  destruct (shape_at_param _ _ _ Hw) as [_ HW].
  destruct (shape_Mat _ _ _ HW) as [dW EW]. rewrite EW.
  destruct x as [n d|n k dx]; [discriminate|].
  unfold lift, Torch.mm. destruct (k =? i); [|discriminate].
  unfold Torch.spmm, Torch.mm, mtab at 1.
  destruct adj as [m d|a b da]; [discriminate|].
  destruct (b =? n); [|discriminate].
  destruct (GraphConvolution.bias g) as [bl|].
  - rewrite (data_param _ _ _ Hb).
    destruct (shape_at_param _ _ _ Hb) as [_ HB].
    destruct (shape_Vec _ _ HB) as [db EB]. rewrite EB.
    rewrite tadd_bias_run. intros H. inversion H. now exists a.
  - unfold ret. intros H. inversion H. now exists a.
Qed.

Lemma encoder_forward_is_pipeline (e : Encoder.t) (x adj : tensor)
    (st : state) :
  Encoder.forward e x adj st =
  run_pipeline
    [SDropout (Encoder.dropout e) (Encoder.training e);
     SGraphConvolution (Encoder.gc1 e); SReLU;
     SDropout (Encoder.dropout e) (Encoder.training e);
     SGraphConvolution (Encoder.gc2 e)] x adj st.
Proof.
  unfold Encoder.forward, run_pipeline, run_stage, bind, ret.
  destruct (Torch.dropout x _ _ st) as [[x1 s']|]; [|reflexivity].
  destruct (GraphConvolution.forward _ x1 adj s') as [[x2 s'']|];
    [|reflexivity].
  destruct (Torch.dropout _ _ _ s'') as [[x3 s3]|]; [|reflexivity].
  now destruct (GraphConvolution.forward _ x3 adj s3) as [[x4 s4]|].
Qed.

Lemma encoder_forward_width (e : Encoder.t) (nfeat nhid : nat)
    (x adj H : tensor) (st st' : state) :
  encoder_wf st e nfeat nhid ->
  Encoder.forward e x adj st = Ok (H, st') ->
  exists n, shape H = [n; nhid].
Proof.
  intros [_ W2]. unfold Encoder.forward, bind, ret.
  destruct (Torch.dropout x _ _ st) as [[x1 s1]|] eqn:D1; [|discriminate].
  destruct (GraphConvolution.forward _ x1 adj s1) as [[x2 s2]|] eqn:F1;
    [|discriminate].
  destruct (Torch.dropout _ _ _ s2) as [[x3 s3]|] eqn:D2; [|discriminate].
  destruct (GraphConvolution.forward _ x3 adj s3) as [[x4 s4]|] eqn:F2;
    [|discriminate].
  intros HH. inversion HH; subst.
  apply (gc_forward_width s3 st' (Encoder.gc2 e) nhid nhid x3 adj H);
    [|exact F2].
  apply (gc_wf_params st s3); [|exact W2].
  rewrite (keeps_dropout _ _ _ _ _ _ D2), (keeps_gc_forward _ _ _ _ _ _ F1).
  apply (keeps_dropout _ _ _ _ _ _ D1).
Qed.

(** C2.  [Encoder.forward] is the pipeline dropout, gc1, ReLU, dropout,
    gc2, in this order and ending with gc2: nothing is applied to what gc2
    returns.  The constructor makes gc1 a layer nfeat -> nhid and gc2 a
    layer nhid -> nhid; with these parameter shapes the result has nhid
    columns whenever forward returns, on any input, and for X of shape
    (N, nfeat), A of shape (N, N) and a probability that dropout accepts
    it does return, a tensor of shape (N, nhid).  [tr] is the mode the
    module is in when called. *)
Theorem Encoder_forward_pipeline (nfeat nhid : Z) (p : num) (s0 : state) :
  (0 <= nfeat)%Z -> (0 < nhid)%Z ->
  exists e s1,
    Encoder.init nfeat nhid p s0 = Ok (e, s1) /\
    encoder_wf s1 e (Z.to_nat nfeat) (Z.to_nat nhid) /\
    GraphConvolution.in_features (Encoder.gc1 e) = nfeat /\
    GraphConvolution.out_features (Encoder.gc1 e) = nhid /\
    GraphConvolution.in_features (Encoder.gc2 e) = nhid /\
    GraphConvolution.out_features (Encoder.gc2 e) = nhid /\
    forall (tr : bool) (st : state) (x adj : tensor),
      let e' := if tr then e else Encoder.eval e in
      Encoder.forward e' x adj st =
      run_pipeline
        [SDropout p tr; SGraphConvolution (Encoder.gc1 e); SReLU;
         SDropout p tr; SGraphConvolution (Encoder.gc2 e)] x adj st /\
      (encoder_wf st e (Z.to_nat nfeat) (Z.to_nat nhid) ->
       (forall H st', Encoder.forward e' x adj st = Ok (H, st') ->
                      exists n, shape H = [n; Z.to_nat nhid]) /\
       (forall N, valid_p p = true ->
          shape x = [N; Z.to_nat nfeat] -> shape adj = [N; N] ->
          exists H st', Encoder.forward e' x adj st = Ok (H, st') /\
                        shape H = [N; Z.to_nat nhid])).
Proof.
  intros Hf Hh.
  destruct (encoder_init_wf IL nfeat nhid p s0 Hf Hh) as (s1 & E & _ & W).
  exists (encoder_at (length (params s0)) nfeat nhid p), s1.
  split; [exact E|]. split; [exact W|]. do 4 (split; [reflexivity|]).
  intros tr st x adj e'. split.
  - subst e'. rewrite encoder_forward_is_pipeline. now destruct tr.
  - intros Wst.
    assert (We : encoder_wf st e' (Z.to_nat nfeat) (Z.to_nat nhid))
      by (subst e'; now destruct tr).
    split.
    + intros H st' HF. exact (encoder_forward_width _ _ _ _ _ _ _ _ We HF).
    + intros N Hp HX HA.
      destruct (encoder_forward_run st e' N _ _ x adj We) as (H & st' & HF & HS & _);
        [subst e'; now destruct tr | exact HX | exact HA |].
      now exists H, st'.
Qed.

End EncoderForward.

Lemma Encoder_forward_pipeline_witness :
  exists e (s1 : @state Zscalar),
    Encoder.init (Sc := Zscalar) 2 2 0%Z fresh_state = Ok (e, s1) /\
    exists H st',
      Encoder.forward (Encoder.eval e) demo_X demo_A demo_state
        = Ok (H, st') /\
      shape H = [3; 2].
Proof.
  destruct (@Encoder_forward_pipeline Zscalar Zscalar_init_laws 2 2 0%Z
              fresh_state) as (e & s1 & E & _ & _ & _ & _ & _ & F);
    [lia | lia |].
  exists e, s1. split; [exact E|].
  assert (e = @encoder_at Zscalar 0 2 2 0%Z) as -> by
    (vm_compute in E; now inversion E).
  destruct (F false demo_state demo_X demo_A) as [_ G].
  apply (proj2 (G ltac:(repeat split; reflexivity)) 3); reflexivity.
Defined.

(** The result of gc2 is returned as it is: entries can be negative. *)
Example encoder_output_not_rectified :
  outcome (Encoder.forward (Encoder.eval (@encoder_at Zscalar 0 2 2 0%Z))
             (@Mat Zscalar 3 2 [[0; 0]; [0; 0]; [0; 0]]%Z) demo_A
             demo_state) =
  Ok (@Mat Zscalar 3 2 [[-5; 5]; [-6; 7]; [-5; 5]]%Z).
Proof. vm_compute. reflexivity. Qed.

(** ** Discriminator.forward *)

Section DiscriminatorForward.
Context {Sc : Scalar}.
Hypothesis IL : InitLaws Sc.

Lemma discriminator_forward_is_pipeline (d : Discriminator.t)
    (x adj : tensor) (st : state) :
  Discriminator.forward d x st =
  run_pipeline
    [SReLU;
     SDropout (Discriminator.dropout d) (Discriminator.training d);
     SLinear (Discriminator.lr1 d); SReLU;
     SDropout (Discriminator.dropout d) (Discriminator.training d);
     SLinear (Discriminator.lr2 d)] x adj st.
Proof.
  unfold Discriminator.forward, run_pipeline, run_stage, bind, ret.
  destruct (Torch.dropout _ _ _ st) as [[x1 s1]|]; [|reflexivity].
  destruct (Linear.forward _ x1 s1) as [[x2 s2]|]; [|reflexivity].
  destruct (Torch.dropout _ _ _ s2) as [[x3 s3]|]; [|reflexivity].
  now destruct (Linear.forward _ x3 s3) as [[x4 s4]|].
Qed.

(** C3.  [Discriminator.forward] is the pipeline ReLU, dropout, lr1, ReLU,
    dropout, lr2.  The constructor makes lr1 a linear layer
    nin -> nin // 2 and lr2 a linear layer nin // 2 -> nout, where
    nin // 2 = h is the floor of nin / 2 (2h <= nin < 2h + 2, so h = k for
    nin = 2k + 1); for X of shape (N, nin) and a probability that dropout
    accepts, forward returns a tensor of shape (N, nout). *)
Theorem Discriminator_forward_pipeline (nin nout : Z) (p : num) (s0 : state) :
  (0 <= nin)%Z -> (0 <= nout)%Z ->
  exists d s1 h,
    Discriminator.init nin nout p s0 = Ok (d, s1) /\
    (2 * h <= nin < 2 * h + 2)%Z /\
    Linear.in_features (Discriminator.lr1 d) = nin /\
    Linear.out_features (Discriminator.lr1 d) = h /\
    Linear.in_features (Discriminator.lr2 d) = h /\
    Linear.out_features (Discriminator.lr2 d) = nout /\
    shape_at s1 (Linear.weight (Discriminator.lr1 d))
      = Some [Z.to_nat h; Z.to_nat nin] /\
    shape_at s1 (Linear.bias (Discriminator.lr1 d)) = Some [Z.to_nat h] /\
    shape_at s1 (Linear.weight (Discriminator.lr2 d))
      = Some [Z.to_nat nout; Z.to_nat h] /\
    shape_at s1 (Linear.bias (Discriminator.lr2 d)) = Some [Z.to_nat nout] /\
    forall (tr : bool) (st : state) (x adj : tensor),
      let d' := if tr then d else Discriminator.eval d in
      Discriminator.forward d' x st =
      run_pipeline
        [SReLU; SDropout p tr; SLinear (Discriminator.lr1 d); SReLU;
         SDropout p tr; SLinear (Discriminator.lr2 d)] x adj st /\
      (discriminator_wf st d (Z.to_nat nin) (Z.to_nat nout) ->
       forall N, valid_p p = true -> shape x = [N; Z.to_nat nin] ->
         exists Y st', Discriminator.forward d' x st = Ok (Y, st') /\
                       shape Y = [N; Z.to_nat nout]).
Proof.
  intros Hi Ho.
  destruct (discriminator_init_wf IL nin nout p s0 Hi Ho)
    as (s1 & E & _ & W).
  exists (discriminator_at (length (params s0)) nin nout p), s1, (nin / 2)%Z.
  split; [exact E|].
  split; [pose proof (Z.div_mod nin 2) as D;
          pose proof (Z.mod_pos_bound nin 2); lia|].
  do 4 (split; [reflexivity|]).
  assert (D : Z.to_nat nin / 2 = Z.to_nat (nin / 2))
    by (rewrite Z2Nat.inj_div by lia; reflexivity).
  destruct W as [[W1 B1] [W2 B2]]. rewrite D in W1, B1, W2.
  do 4 (split; [assumption|]).
  intros tr st x adj d'. split.
  - subst d'. rewrite (discriminator_forward_is_pipeline _ x adj).
    now destruct tr.
  - intros Wst N Hp HX.
    assert (Wd : discriminator_wf st d' (Z.to_nat nin) (Z.to_nat nout))
      by (subst d'; now destruct tr).
    destruct (discriminator_forward_run st d' N _ _ x Wd)
      as (Y & st' & HF & HS & _);
      [subst d'; now destruct tr | exact HX |].
    now exists Y, st'.
Qed.

End DiscriminatorForward.

Lemma Discriminator_forward_pipeline_witness :
  exists d (s1 : @state Zscalar),
    Discriminator.init (Sc := Zscalar) 3 2 0%Z fresh_state = Ok (d, s1) /\
    Linear.out_features (Discriminator.lr1 d) = 1%Z /\
    exists Y st',
      Discriminator.forward (Discriminator.eval d)
        (@Mat Zscalar 2 3 [[1; -2; 3]; [0; 4; -1]]%Z) s1 = Ok (Y, st') /\
      shape Y = [2; 2].
Proof.
  destruct (@Discriminator_forward_pipeline Zscalar Zscalar_init_laws 3 2 0%Z
              fresh_state)
    as (d & s1 & h & E & Hh & _ & H1 & _ & _ & W1 & B1 & W2 & B2 & F);
    [lia | lia |].
  exists d, s1. split; [exact E|].
  assert (h = 1%Z) as -> by lia. split; [exact H1|].
  destruct (F false s1 (@Mat Zscalar 2 3 [[1; -2; 3]; [0; 4; -1]]%Z)
              (@Vec Zscalar 0 [])) as [_ G].
  apply (G (conj (conj W1 B1) (conj W2 B2)) 2); reflexivity.
Defined.

(** ** MultiTask.forward *)

Section MultiTaskForward.
Context {Sc : Scalar}.
Hypothesis IL : InitLaws Sc.

Lemma multitask_forward_inv (m : MultiTask.t) (x adj H nc ad : tensor)
    (st st' : state) :
  MultiTask.forward m x adj st = Ok (H, nc, ad, st') ->
  exists s1 s2,
    Encoder.forward (MultiTask.encoder m) x adj st = Ok (H, s1) /\
    Discriminator.forward (MultiTask.dis_neighbor m) H s1 = Ok (nc, s2) /\
    Discriminator.forward (MultiTask.dis_anomlay m) H s2 = Ok (ad, st').
Proof.
  unfold MultiTask.forward, bind, ret.
  destruct (Encoder.forward _ x adj st) as [[h s1]|]; [|discriminate].
  destruct (Discriminator.forward (MultiTask.dis_neighbor m) h s1)
    as [[n s2]|] eqn:E1; [|discriminate].
  destruct (Discriminator.forward (MultiTask.dis_anomlay m) h s2)
    as [[a s3]|] eqn:E2; [|discriminate].
  intros HH. inversion HH; subst. now exists s1, s2.
Qed.

Lemma discriminator_wf_params (s s' : state) d i o :
  params s' = params s -> discriminator_wf s d i o -> discriminator_wf s' d i o.
Proof.
  intros E [H1 H2]. split; apply (linear_wf_params s s'); assumption.
Qed.

Lemma multitask_forward_run (m : MultiTask.t) (N nfeat nhid nout : nat)
    (x adj : tensor) (st : state) :
  multitask_wf st m nfeat nhid nout ->
  valid_p (Encoder.dropout (MultiTask.encoder m)) = true ->
  valid_p (Discriminator.dropout (MultiTask.dis_neighbor m)) = true ->
  valid_p (Discriminator.dropout (MultiTask.dis_anomlay m)) = true ->
  shape x = [N; nfeat] -> shape adj = [N; N] ->
  exists H nc ad st',
    MultiTask.forward m x adj st = Ok (H, nc, ad, st') /\
    shape H = [N; nhid] /\ shape nc = [N; nout] /\ shape ad = [N; 2].
Proof.
  intros (We & Wn & Wa) Pe Pn Pa HX HA. unfold MultiTask.forward, bind, ret.
  destruct (encoder_forward_run st _ N _ _ x adj We Pe HX HA)
    as (H & s1 & -> & SH & E1).
  destruct (discriminator_forward_run s1 (MultiTask.dis_neighbor m) N nhid
              nout H) as (nc & s2 & -> & Snc & E2);
    [now apply (discriminator_wf_params st) | exact Pn | exact SH |].
  destruct (discriminator_forward_run s2 (MultiTask.dis_anomlay m) N nhid
              2 H) as (ad & s3 & -> & Sad & E3);
    [apply (discriminator_wf_params st); [congruence|exact Wa]
    | exact Pa | exact SH |].
  now exists H, nc, ad, s3.
Qed.

(** C4.  A constructed MultiTask model has an encoder nfeat -> nhid, a
    neighbor head nhid -> nout and an anomaly head nhid -> 2; its twelve
    parameters are distinct objects, so the two heads share none.  When
    [forward] returns (H, pred_nc, pred_ad), H is what the encoder returned
    and the two predictions are what the two heads returned on that same
    H; for X of shape (N, nfeat), A of shape (N, N) and a probability that
    dropout accepts, it returns, with shapes (N, nhid), (N, nout) and
    (N, 2). *)
Theorem MultiTask_forward_spec (nfeat nhid nout : Z) (p : num) (s0 : state) :
  (0 <= nfeat)%Z -> (0 < nhid)%Z -> (0 <= nout)%Z ->
  exists m s1,
    MultiTask.init nfeat nhid nout p s0 = Ok (m, s1) /\
    multitask_wf s1 m (Z.to_nat nfeat) (Z.to_nat nhid) (Z.to_nat nout) /\
    Linear.in_features (Discriminator.lr1 (MultiTask.dis_neighbor m)) = nhid /\
    Linear.out_features (Discriminator.lr2 (MultiTask.dis_neighbor m)) = nout /\
    Linear.in_features (Discriminator.lr1 (MultiTask.dis_anomlay m)) = nhid /\
    Linear.out_features (Discriminator.lr2 (MultiTask.dis_anomlay m)) = 2%Z /\
    NoDup (MultiTask.parameters m) /\
    (forall l, In l (Discriminator.parameters (MultiTask.dis_neighbor m)) ->
               ~ In l (Discriminator.parameters (MultiTask.dis_anomlay m))) /\
    forall (tr : bool) (st : state) (x adj : tensor),
      let m' := if tr then m else MultiTask.eval m in
      (forall H nc ad st',
         MultiTask.forward m' x adj st = Ok (H, nc, ad, st') ->
         exists s2 s3,
           Encoder.forward (MultiTask.encoder m') x adj st = Ok (H, s2) /\
           Discriminator.forward (MultiTask.dis_neighbor m') H s2
             = Ok (nc, s3) /\
           Discriminator.forward (MultiTask.dis_anomlay m') H s3
             = Ok (ad, st')) /\
      (multitask_wf st m (Z.to_nat nfeat) (Z.to_nat nhid) (Z.to_nat nout) ->
       forall N, valid_p p = true ->
         shape x = [N; Z.to_nat nfeat] -> shape adj = [N; N] ->
         exists H nc ad st',
           MultiTask.forward m' x adj st = Ok (H, nc, ad, st') /\
           shape H = [N; Z.to_nat nhid] /\
           shape nc = [N; Z.to_nat nout] /\
           shape ad = [N; 2]).
Proof.
  intros Hf Hh Ho.
  destruct (multitask_init_wf IL nfeat nhid nout p s0 Hf Hh Ho)
    as (s1 & E & _ & W).
  exists (multitask_at (length (params s0)) nfeat nhid nout p), s1.
  split; [exact E|]. split; [exact W|]. do 4 (split; [reflexivity|]).
  split; [|split].
  - cbn. repeat constructor; cbn; intuition lia.
  - cbn. intuition lia.
  - intros tr st x adj m'. split.
    + intros H nc ad st'. apply multitask_forward_inv.
    + intros Wst N Hp HX HA.
      apply (multitask_forward_run m' N (Z.to_nat nfeat));
        subst m'; destruct tr; assumption.
Qed.

End MultiTaskForward.

Lemma MultiTask_forward_spec_witness :
  exists m (s1 : @state Zscalar),
    MultiTask.init (Sc := Zscalar) 2 2 3 0%Z fresh_state = Ok (m, s1) /\
    exists H nc ad st',
      MultiTask.forward (MultiTask.eval m) demo_X demo_A demo_state
        = Ok (H, nc, ad, st') /\
      shape H = [3; 2] /\ shape nc = [3; 3] /\ shape ad = [3; 2].
Proof.
  destruct (@MultiTask_forward_spec Zscalar Zscalar_init_laws 2 2 3 0%Z
              fresh_state)
    as (m & s1 & E & _ & _ & _ & _ & _ & _ & _ & F); [lia | lia | lia |].
  exists m, s1. split; [exact E|].
  assert (m = demo_multitask) as -> by (vm_compute in E; now inversion E).
  destruct (F false demo_state demo_X demo_A) as [_ G].
  apply (G ltac:(repeat split; reflexivity) 3); reflexivity.
Defined.

(** ** What the constructors check *)

Section ConstructionChecks.
Context {Sc : Scalar}.
Hypothesis IL : InitLaws Sc.

Lemma gc_init_negative (i o : Z) (b : bool) (s : state) :
  (i < 0 \/ o < 0)%Z -> GraphConvolution.init i o b s = Raise RuntimeError.
Proof.
  intros H. unfold GraphConvolution.init, bind, Torch.FloatTensor2.
  replace ((i <? 0) || (o <? 0))%Z with true; [reflexivity|].
  symmetry. apply orb_true_iff. rewrite !Z.ltb_lt. exact H.
Qed.

Lemma gc_init_zero_out (i : Z) (b : bool) (s : state) :
  (0 <= i)%Z -> GraphConvolution.init i 0 b s = Raise ZeroDivisionError.
Proof.
  intros Hi. unfold GraphConvolution.init, bind.
  rewrite (FloatTensor2_run i 0 s) by lia. unfold Torch.new_Parameter at 1.
  assert (Z0 : Torch.pydiv one (root (of_int 0)) =
               fun _ => Raise ZeroDivisionError).
  { unfold Torch.pydiv. now rewrite (root_zero IL). }
  destruct b.
  - rewrite FloatTensor1_run by lia. unfold Torch.new_Parameter.
    cbn [params gen]. unfold ret at 1.
    unfold GraphConvolution.reset_parameters, bind.
    cbn [GraphConvolution.weight]. unfold Torch.data. cbn [params].
    rewrite <- app_assoc. cbn [app]. rewrite nth_error_at_length.
    cbn [Torch.size shape mtab nth_error lift Z.to_nat Z.of_nat].
    now rewrite Z0.
  - unfold ret at 1. unfold GraphConvolution.reset_parameters, bind.
    cbn [GraphConvolution.weight]. unfold Torch.data. cbn [params].
    rewrite nth_error_at_length.
    cbn [Torch.size shape mtab nth_error lift Z.to_nat Z.of_nat].
    now rewrite Z0.
Qed.

Lemma linear_init_negative (i o : Z) (s : state) :
  (i < 0 \/ o < 0)%Z -> Linear.init i o s = Raise RuntimeError.
Proof.
  intros H. unfold Linear.init, bind, Torch.FloatTensor2.
  replace ((o <? 0) || (i <? 0))%Z with true; [reflexivity|].
  symmetry. apply orb_true_iff. rewrite !Z.ltb_lt. tauto.
Qed.

Lemma encoder_forward_invalid (e : Encoder.t) (x adj : tensor) (s : state) :
  valid_p (Encoder.dropout e) = false ->
  Encoder.forward e x adj s = Raise ValueError.
Proof.
  intros H. unfold Encoder.forward, bind. now rewrite dropout_invalid.
Qed.

Lemma discriminator_forward_invalid (d : Discriminator.t) (x : tensor)
    (s : state) :
  valid_p (Discriminator.dropout d) = false ->
  Discriminator.forward d x s = Raise ValueError.
Proof.
  intros H. unfold Discriminator.forward, bind. now rewrite dropout_invalid.
Qed.

(** C5, as the code has it.  No constructor looks at the dropout
    probability: for usable sizes, construction succeeds for every
    probability and stores it as given; a probability below 0 or above 1
    is rejected only by [forward], which then raises ValueError in either
    mode.  Among the sizes, a negative one is rejected at construction
    (RuntimeError from the tensor allocation), while in_features = 0 is
    accepted. *)
Theorem construction_checks :
  (forall nfeat nhid p s, (0 <= nfeat)%Z -> (0 < nhid)%Z ->
     exists e s', Encoder.init nfeat nhid p s = Ok (e, s') /\
                  Encoder.dropout e = p) /\
  (forall nin nout p s, (0 <= nin)%Z -> (0 <= nout)%Z ->
     exists d s', Discriminator.init nin nout p s = Ok (d, s') /\
                  Discriminator.dropout d = p) /\
  (forall nfeat nhid nout p s, (0 <= nfeat)%Z -> (0 < nhid)%Z -> (0 <= nout)%Z ->
     (exists m s', MultiTask.init nfeat nhid nout p s = Ok (m, s') /\
                   Encoder.dropout (MultiTask.encoder m) = p) /\
     (exists m s', SingleTask.init nfeat nhid nout p s = Ok (m, s') /\
                   Encoder.dropout (SingleTask.encoder m) = p)) /\
  (forall (e : Encoder.t) x adj s,
     valid_p (Encoder.dropout e) = false ->
     Encoder.forward e x adj s = Raise ValueError) /\
  (forall (d : Discriminator.t) x s,
     valid_p (Discriminator.dropout d) = false ->
     Discriminator.forward d x s = Raise ValueError) /\
  (forall (m : MultiTask.t) x adj s,
     valid_p (Encoder.dropout (MultiTask.encoder m)) = false ->
     MultiTask.forward m x adj s = Raise ValueError) /\
  (forall (m : SingleTask.t) x adj s,
     valid_p (Encoder.dropout (SingleTask.encoder m)) = false ->
     SingleTask.forward m x adj s = Raise ValueError) /\
  (forall i o b s, (i < 0 \/ o < 0)%Z ->
     GraphConvolution.init i o b s = Raise RuntimeError) /\
  (forall nfeat nhid p s, (nfeat < 0 \/ nhid < 0)%Z ->
     Encoder.init nfeat nhid p s = Raise RuntimeError) /\
  (forall nin nout p s, (nin < 0 \/ nout < 0)%Z ->
     Discriminator.init nin nout p s = Raise RuntimeError) /\
  (forall o b s, (0 < o)%Z ->
     exists g s', GraphConvolution.init 0 o b s = Ok (g, s')).
Proof.
  split; [|split; [|split; [|split; [|split; [|split; [|split;
    [|split; [|split; [|split]]]]]]]]].
  - intros nfeat nhid p s Hf Hh.
    destruct (encoder_init_wf IL nfeat nhid p s Hf Hh) as (s' & E & _).
    eexists _, s'; split; [exact E|reflexivity].
  - intros nin nout p s Hi Ho.
    destruct (discriminator_init_wf IL nin nout p s Hi Ho) as (s' & E & _).
    eexists _, s'; split; [exact E|reflexivity].
  - intros nfeat nhid nout p s Hf Hh Ho. split.
    + destruct (multitask_init_wf IL nfeat nhid nout p s Hf Hh Ho)
        as (s' & E & _).
      eexists _, s'; split; [exact E|reflexivity].
    + destruct (singletask_init_wf IL nfeat nhid nout p s Hf Hh Ho)
        as (s' & E & _).
      eexists _, s'; split; [exact E|reflexivity].
  - apply encoder_forward_invalid.
  - apply discriminator_forward_invalid.
  - intros m x adj s H. unfold MultiTask.forward, bind.
    now rewrite encoder_forward_invalid.
  - intros m x adj s H. unfold SingleTask.forward, bind.
    now rewrite encoder_forward_invalid.
  - apply gc_init_negative.
  - intros nfeat nhid p s H. unfold Encoder.init, bind.
    now rewrite gc_init_negative.
  - intros nin nout p s H. unfold Discriminator.init, bind.
    destruct (Z.ltb_spec nin 0) as [Hn|Hn].
    + now rewrite linear_init_negative by lia.
    + assert (Hh : (0 <= nin / 2)%Z) by (apply Z.div_pos; lia).
      destruct (linear_init_wf IL nin (nin / 2)%Z s Hn Hh) as (s1 & -> & _).
      rewrite linear_init_negative by lia. reflexivity.
  - intros o b s Ho.
    destruct (gc_init_wf IL 0 o b s (Z.le_refl 0) Ho) as (s' & E & _).
    eexists _, s'. exact E.
Qed.

End ConstructionChecks.

Lemma construction_checks_witness :
  exists e (s' : @state Rscalar),
    Encoder.init (Sc := Rscalar) 0 5 2%R fresh_state = Ok (e, s') /\
    Encoder.dropout e = 2%R.
Proof.
  apply (proj1 (@construction_checks Rscalar Rscalar_init_laws)
           0%Z 5%Z 2%R fresh_state); lia.
Defined.

(** C5 as stated fails: with real arithmetic, the probability 2 is outside
    [0, 1) and [Encoder(3, 5, 2)] is constructed all the same, as is
    [Discriminator(4, 2, -1)]; so is [GraphConvolution(0, 5)], whose
    in_features is not positive. *)
Lemma invalid_configuration_accepted :
  @valid_p Rscalar 2%R = false /\
  @valid_p Rscalar (-1)%R = false /\
  (exists e (s' : @state Rscalar),
     Encoder.init (Sc := Rscalar) 3 5 2%R fresh_state = Ok (e, s')) /\
  (exists d (s' : @state Rscalar),
     Discriminator.init (Sc := Rscalar) 4 2 (-1)%R fresh_state = Ok (d, s')) /\
  (exists g (s' : @state Rscalar),
     GraphConvolution.init (Sc := Rscalar) 0 5 true fresh_state = Ok (g, s')).
Proof.
  split; [|split; [|split; [|split]]].
  - unfold valid_p. change (@one Rscalar) with 1%R.
    rewrite (Rscalar_ltb_true 1 2) by lra. now rewrite orb_true_r.
  - unfold valid_p. change (@zero Rscalar) with 0%R.
    now rewrite (Rscalar_ltb_true (-1) 0) by lra.
  - destruct (@encoder_init_wf Rscalar Rscalar_init_laws 3 5 2%R fresh_state)
      as (s' & E & _); [lia | lia |].
    eexists _, s'. exact E.
  - destruct (@discriminator_init_wf Rscalar Rscalar_init_laws 4 2 (-1)%R
                fresh_state) as (s' & E & _); [lia | lia |].
    eexists _, s'. exact E.
  - destruct (@gc_init_wf Rscalar Rscalar_init_laws 0 5 true fresh_state)
      as (s' & E & _); [lia | lia |].
    eexists _, s'. exact E.
Qed.

Example invalid_dropout_raises_in_forward :
  outcome (Encoder.forward
             (Encoder.eval (@encoder_at Zscalar 0 2 2 2%Z))
             demo_X demo_A demo_state) = Raise ValueError.
Proof. reflexivity. Qed.

(** ** Determinism in inference mode *)

Section Determinism.
Context {Sc : Scalar}.

Lemma agree_same_outcome {A} (r1 r2 : result (A * state)) :
  agree r1 r2 -> same_outcome r1 r2.
Proof.
  unfold agree, same_outcome, outcome, rmap, rbind.
  destruct r1 as [[a1 s1]|e1], r2 as [[a2 s2]|e2]; cbn; intros H;
    try contradiction.
  - destruct H as [-> _]. reflexivity.
  - now subst.
Qed.

Lemma blind_ret {A} (a : A) : generator_blind (ret a).
Proof. intros s1 s2 H. cbn. now split. Qed.

Lemma blind_lift {A} (r : result A) : generator_blind (lift r).
Proof. intros s1 s2 H. unfold lift. destruct r; cbn; [now split|reflexivity]. Qed.

Lemma blind_bind {A B} (m : M A) (k : A -> M B) :
  generator_blind m -> (forall a, generator_blind (k a)) ->
  generator_blind (bind m k).
Proof.
  intros Hm Hk s1 s2 H. unfold bind. specialize (Hm s1 s2 H).
  unfold agree in Hm.
  destruct (m s1) as [[a1 t1]|e1], (m s2) as [[a2 t2]|e2];
    try contradiction.
  - destruct Hm as [-> Ht]. now apply Hk.
  - exact Hm.
Qed.

Lemma blind_data (l : loc) : generator_blind (Torch.data l).
Proof.
  intros s1 s2 H. unfold Torch.data. rewrite H.
  destruct (nth_error (params s2) l); cbn; [now split|reflexivity].
Qed.

Lemma blind_dropout_eval (x : tensor) (p : num) :
  generator_blind (Torch.dropout x p false).
Proof.
  intros s1 s2 H. unfold Torch.dropout.
  destruct (ltb p zero || ltb one p); cbn; [reflexivity|now split].
Qed.

Create HintDb blind.
#[local] Hint Resolve blind_ret blind_lift blind_bind blind_data
  blind_dropout_eval : blind.
#[local] Hint Opaque generator_blind : blind.

Lemma blind_gc_forward (g : GraphConvolution.t) (x adj : tensor) :
  generator_blind (GraphConvolution.forward g x adj).
Proof.
  unfold GraphConvolution.forward.
  destruct (GraphConvolution.bias g); auto 8 with blind.
Qed.

Lemma blind_linear_forward (l : Linear.t) (x : tensor) :
  generator_blind (Linear.forward l x).
Proof. unfold Linear.forward. auto with blind. Qed.

#[local] Hint Resolve blind_gc_forward blind_linear_forward : blind.

Lemma blind_encoder_forward (e : Encoder.t) (x adj : tensor) :
  Encoder.training e = false -> generator_blind (Encoder.forward e x adj).
Proof.
  intros Htr. unfold Encoder.forward. rewrite Htr. auto 8 with blind.
Qed.

Lemma blind_discriminator_forward (d : Discriminator.t) (x : tensor) :
  Discriminator.training d = false ->
  generator_blind (Discriminator.forward d x).
Proof.
  intros Htr. unfold Discriminator.forward. rewrite Htr. auto 8 with blind.
Qed.

#[local] Hint Resolve blind_encoder_forward blind_discriminator_forward
  : blind.

Lemma blind_multitask_forward (m : MultiTask.t) (x adj : tensor) :
  Encoder.training (MultiTask.encoder m) = false ->
  Discriminator.training (MultiTask.dis_neighbor m) = false ->
  Discriminator.training (MultiTask.dis_anomlay m) = false ->
  generator_blind (MultiTask.forward m x adj).
Proof.
  intros He Hn Ha. unfold MultiTask.forward. auto 8 with blind.
Qed.

Lemma blind_singletask_forward (m : SingleTask.t) (x adj : tensor) :
  Encoder.training (SingleTask.encoder m) = false ->
  Discriminator.training (SingleTask.discriminator m) = false ->
  generator_blind (SingleTask.forward m x adj).
Proof.
  intros He Hd. unfold SingleTask.forward. auto 8 with blind.
Qed.

(** A second call, made from the state the first one left, returns what
    the first returned. *)
Lemma blind_twice {A} (m : M A) (s s1 s2 : state) (y1 y2 : A) :
  generator_blind m -> keeps_params m ->
  m s = Ok (y1, s1) -> m s1 = Ok (y2, s2) -> y1 = y2.
Proof.
  intros Hb Hk E1 E2. specialize (Hb s s1 (eq_sym (Hk s y1 s1 E1))).
  rewrite E1, E2 in Hb. now destruct Hb.
Qed.

(** C6.  In inference mode (the training flag of the module and of its
    submodules off), two forward calls of an Encoder, a Discriminator, a
    MultiTask or a SingleTask model on the same inputs, made in states
    that hold the same parameter values, return the same value or raise
    the same exception, whatever the generator is in either; in
    particular a call repeated right after the first returns what the
    first returned. *)
Theorem inference_is_deterministic :
  (forall (e : Encoder.t) x adj,
     Encoder.training e = false ->
     (forall s1 s2, params s1 = params s2 ->
        same_outcome (Encoder.forward e x adj s1)
                     (Encoder.forward e x adj s2)) /\
     (forall s y1 s1 y2 s2,
        Encoder.forward e x adj s = Ok (y1, s1) ->
        Encoder.forward e x adj s1 = Ok (y2, s2) -> y1 = y2)) /\
  (forall (d : Discriminator.t) x,
     Discriminator.training d = false ->
     (forall s1 s2, params s1 = params s2 ->
        same_outcome (Discriminator.forward d x s1)
                     (Discriminator.forward d x s2)) /\
     (forall s y1 s1 y2 s2,
        Discriminator.forward d x s = Ok (y1, s1) ->
        Discriminator.forward d x s1 = Ok (y2, s2) -> y1 = y2)) /\
  (forall (m : MultiTask.t) x adj,
     Encoder.training (MultiTask.encoder m) = false ->
     Discriminator.training (MultiTask.dis_neighbor m) = false ->
     Discriminator.training (MultiTask.dis_anomlay m) = false ->
     (forall s1 s2, params s1 = params s2 ->
        same_outcome (MultiTask.forward m x adj s1)
                     (MultiTask.forward m x adj s2)) /\
     (forall s y1 s1 y2 s2,
        MultiTask.forward m x adj s = Ok (y1, s1) ->
        MultiTask.forward m x adj s1 = Ok (y2, s2) -> y1 = y2)) /\
  (forall (m : SingleTask.t) x adj,
     Encoder.training (SingleTask.encoder m) = false ->
     Discriminator.training (SingleTask.discriminator m) = false ->
     (forall s1 s2, params s1 = params s2 ->
        same_outcome (SingleTask.forward m x adj s1)
                     (SingleTask.forward m x adj s2)) /\
     (forall s y1 s1 y2 s2,
        SingleTask.forward m x adj s = Ok (y1, s1) ->
        SingleTask.forward m x adj s1 = Ok (y2, s2) -> y1 = y2)).
Proof.
  split; [|split; [|split]].
  - intros e x adj Htr. split.
    + intros s1 s2 H. apply agree_same_outcome.
      now apply blind_encoder_forward.
    + intros s y1 s1 y2 s2.
      apply blind_twice;
        [now apply blind_encoder_forward|apply keeps_encoder_forward].
  - intros d x Htr. split.
    + intros s1 s2 H. apply agree_same_outcome.
      now apply blind_discriminator_forward.
    + intros s y1 s1 y2 s2.
      apply blind_twice;
        [now apply blind_discriminator_forward
        |apply keeps_discriminator_forward].
  - intros m x adj He Hn Ha. split.
    + intros s1 s2 H. apply agree_same_outcome.
      now apply blind_multitask_forward.
    + intros s y1 s1 y2 s2.
      apply blind_twice;
        [now apply blind_multitask_forward|apply keeps_multitask_forward].
  - intros m x adj He Hd. split.
    + intros s1 s2 H. apply agree_same_outcome.
      now apply blind_singletask_forward.
    + intros s y1 s1 y2 s2.
      apply blind_twice;
        [now apply blind_singletask_forward|apply keeps_singletask_forward].
Qed.

End Determinism.

Lemma inference_is_deterministic_witness :
  same_outcome
    (MultiTask.forward (MultiTask.eval demo_multitask) demo_X demo_A
       demo_state)
    (MultiTask.forward (MultiTask.eval demo_multitask) demo_X demo_A
       {| params := demo_params;
          gen := @Build_generator Zscalar (fun k => Z.of_nat k) 7 |}).
Proof.
  apply (proj1 (proj1 (proj2 (proj2 (@inference_is_deterministic Zscalar)))
                  (MultiTask.eval demo_multitask) demo_X demo_A
                  eq_refl eq_refl eq_refl)).
  reflexivity.
Defined.

(** In training mode the output does depend on the generator: with real
    arithmetic and probability 1/2, a draw of 0 keeps the entry (scaled by
    2) and a draw of 3/4 zeroes it. *)
Example training_dropout_depends_on_generator :
  let x := @Vec Rscalar 1 [1%R] in
  let s (u : R) : @state Rscalar :=
    {| params := []; gen := @Build_generator Rscalar (fun _ => u) 0 |} in
  outcome (Torch.dropout x (1 / 2)%R true (s 0%R)) =
    Ok (@Vec Rscalar 1 [(1 * (1 / (1 - 1 / 2)))%R]) /\
  outcome (Torch.dropout x (1 / 2)%R true (s (3 / 4)%R)) =
    Ok (@Vec Rscalar 1 [(1 * (0 / (1 - 1 / 2)))%R]) /\
  (1 * (1 / (1 - 1 / 2)) <> 1 * (0 / (1 - 1 / 2)))%R.
Proof.
  cbv zeta. unfold Torch.dropout, Torch.eqb.
  change (@zero Rscalar) with 0%R. change (@one Rscalar) with 1%R.
  rewrite (Rscalar_ltb_false (1 / 2) 0) by lra.
  rewrite (Rscalar_ltb_false 1 (1 / 2)) by lra.
  rewrite (Rscalar_ltb_true 0 (1 / 2)) by lra.
  rewrite (Rscalar_ltb_true (1 / 2) 1) by lra.
  cbn [orb negb andb Torch.numel Nat.eqb].
  cbn [gen stream offset sub Rscalar].
  rewrite (Rscalar_ltb_true 0 (1 - 1 / 2)) by lra.
  rewrite (Rscalar_ltb_false (3 / 4) (1 - 1 / 2)) by lra.
  repeat split; lra.
Qed.

(** ** The degenerate head: nin = 1 *)

Section DegenerateHead.
Context {Sc : Scalar}.
Hypothesis IL : InitLaws Sc.
Hypothesis add_zero_l : forall x : num, add zero x = x.

(** C10.  [Discriminator(1, nout, p)] is constructed without complaint;
    its hidden width is 1 // 2 = 0: lr1 has a weight of shape (0, 1) and
    lr2 a weight of shape (nout, 0).  In inference mode, with a
    probability that dropout accepts and whatever values the parameters
    hold, forward returns for every X of shape (N, 1) the (N, nout) tensor
    whose every row is the bias of lr2: the input does not matter. *)
Theorem Discriminator_nin_1 (nout : Z) (p : num) (s0 : state) :
  (0 <= nout)%Z ->
  exists d s1,
    Discriminator.init 1 nout p s0 = Ok (d, s1) /\
    Linear.out_features (Discriminator.lr1 d) = 0%Z /\
    Linear.in_features (Discriminator.lr2 d) = 0%Z /\
    shape_at s1 (Linear.weight (Discriminator.lr1 d)) = Some [0; 1] /\
    shape_at s1 (Linear.bias (Discriminator.lr1 d)) = Some [0] /\
    shape_at s1 (Linear.weight (Discriminator.lr2 d))
      = Some [Z.to_nat nout; 0] /\
    shape_at s1 (Linear.bias (Discriminator.lr2 d)) = Some [Z.to_nat nout] /\
    forall (st : state) (N : nat) (X : tensor),
      discriminator_wf st d 1 (Z.to_nat nout) ->
      valid_p p = true -> shape X = [N; 1] ->
      Discriminator.forward (Discriminator.eval d) X st =
      Ok (mtab N (Z.to_nat nout) (fun _ k =>
            vget (param st (Linear.bias (Discriminator.lr2 d))) k), st).
Proof.
  intros Ho.
  destruct (discriminator_init_wf IL 1 nout p s0 ltac:(lia) Ho)
    as (s1 & E & _ & W).
  exists (discriminator_at (length (params s0)) 1 nout p), s1.
  split; [exact E|]. do 2 (split; [reflexivity|]).
  destruct W as [[W1 B1] [W2 B2]].
  do 4 (split; [assumption|]).
  intros st N X Wst Hp HX.
  rewrite (discriminator_forward_eval st _ N 1 (Z.to_nat nout) X);
    [| exact Wst | reflexivity | exact Hp | exact HX].
  do 2 f_equal. unfold discriminator_output, linear_output at 1.
  apply mtab_ext. intros r k Hr Hk.
  change (1 / 2) with 0. unfold projected. cbn [sum]. apply add_zero_l.
Qed.

End DegenerateHead.

Lemma Discriminator_nin_1_witness :
  exists d (s1 : @state Zscalar),
    Discriminator.init (Sc := Zscalar) 1 2 0%Z fresh_state = Ok (d, s1) /\
    Discriminator.forward (Discriminator.eval d)
      (@Mat Zscalar 3 1 [[3]; [-4]; [0]]%Z) degenerate_state
    = Ok (@Mat Zscalar 3 2 [[7; -5]; [7; -5]; [7; -5]]%Z, degenerate_state).
Proof.
  destruct (@Discriminator_nin_1 Zscalar Zscalar_init_laws Z.add_0_l 2 0%Z
              fresh_state) as (d & s1 & E & _ & _ & _ & _ & _ & _ & F);
    [lia|].
  exists d, s1. split; [exact E|].
  assert (d = @discriminator_at Zscalar 0 1 2 0%Z) as ->
    by (vm_compute in E; now inversion E).
  refine (F degenerate_state 3 (@Mat Zscalar 3 1 [[3]; [-4]; [0]]%Z) _ _ _);
    repeat split; reflexivity.
Defined.

(** ** Initialisation of GraphConvolution *)

Section Initialisation.






End Initialisation.


(** ** Permutation of the nodes *)

Section Permutations.
Context {Sc : Scalar}.
Hypothesis L : ScalarLaws Sc.

Lemma sum_zero (n : nat) (f : nat -> num) :
  (forall j, j < n -> f j = zero) -> sum n f = zero.
Proof.
  induction n as [|n IH]; intros H; cbn [sum]; [reflexivity|].
  rewrite IH by (intros; apply H; lia). rewrite H by lia.
  apply (add_0_l L).
Qed.

(** A sum against a row of a permutation matrix picks one term. *)
Lemma sum_delta_l (n a : nat) (g : nat -> num) :
  a < n ->
  sum n (fun j => mul (if j =? a then one else zero) (g j)) = g a.
Proof.
  induction n as [|n IH]; intros Ha; [lia|]. cbn [sum].
  destruct (Nat.eq_dec a n) as [->|Hne].
  - rewrite Nat.eqb_refl, (mul_1_l L).
    rewrite sum_zero; [apply (add_0_l L)|].
    intros j Hj. destruct (Nat.eqb_spec j n); [lia|apply (mul_0_l L)].
  - rewrite IH by lia.
    destruct (Nat.eqb_spec n a); [lia|].
    now rewrite (mul_0_l L), (add_0_r L).
Qed.









End Permutations.

Section Equivariance.
Context {Sc : Scalar}.
Hypothesis L : ScalarLaws Sc.











End Equivariance.

Section EncoderEquivariance.
Context {Sc : Scalar}.
Hypothesis L : ScalarLaws Sc.


End EncoderEquivariance.


Example demo_permuted_run :
  let e := Encoder.eval (@encoder_at Zscalar 0 2 2 0%Z) in
  let P := @perm_mx Zscalar [2; 0; 1] in
  outcome (Encoder.forward e demo_X demo_A demo_state) =
    Ok (@Mat Zscalar 3 2 [[11; 15]; [17; 21]; [14; 18]]%Z) /\
  outcome (bind (lift (Torch.mm P demo_X)) (fun PX =>
           bind (lift (rbind (Torch.mm P demo_A)
                             (fun PA => Torch.mm PA (Torch.t P)))) (fun PAPt =>
           Encoder.forward e PX PAPt)) demo_state) =
    Ok (@Mat Zscalar 3 2 [[14; 18]; [11; 15]; [17; 21]]%Z).
Proof. split; vm_compute; reflexivity. Qed.

(** ** Rounding

    Binary32 addition is not associative: (2^24 + 1) + 1 is 2^24, the
    sum 2^24 + 1 being rounded to the even neighbour, while 2^24 + (1 + 1)
    is 2^24 + 2.  The laws of exact arithmetic are therefore a proper
    hypothesis for tensors of floats. *)
Lemma F32scalar_not_exact : ~ ScalarLaws F32scalar.
Proof.
  intros L.
  pose proof (add_assoc L (Float32.of_Z 16777216) (Float32.of_Z 1)
                (Float32.of_Z 1)) as E.
  apply (f_equal (fun v => PrimFloat.eqb v (Float32.of_Z 16777216))) in E.
  vm_compute in E. discriminate E.
Qed.

(** The sum of 2^24, 1 and 1 in binary32 depends only on which term is
    added last, whatever the order of the other two and the side on
    which it is added: 2^24 + 2 when 2^24 comes last, 2^24 otherwise. *)
Lemma binary32_sum_order :
  let a := Float32.of_Z 16777216 in
  let b := Float32.of_Z 16777218 in
  let u := Float32.of_Z 1 in
  let plus := @add F32scalar in
  plus (plus a u) u = a /\ plus (plus u a) u = a /\
  plus u (plus a u) = a /\ plus u (plus u a) = a /\
  plus (plus u u) a = b /\ plus a (plus u u) = b /\
  a <> b.
Proof.
  intros a b u plus. repeat (split; [reflexivity|]).
  intros E. apply (f_equal (fun v => PrimFloat.eqb v a)) in E.
  vm_compute in E. discriminate E.
Qed.


(** * Further properties *)

(** ** Sizes that the constructors reject by accident *)

Section ZeroHiddenSize.
Context {Sc : Scalar}.
Hypothesis IL : InitLaws Sc.

(** X1.  A GraphConvolution with out_features = 0 cannot be built: the
    bound 1 / sqrt(0) in [reset_parameters] raises ZeroDivisionError, after
    the tensors were allocated.  So Encoder, MultiTask and SingleTask
    raise ZeroDivisionError for nhid = 0. *)
Theorem zero_hidden_size_raises :
  (forall i b s, (0 <= i)%Z ->
     GraphConvolution.init i 0 b s = Raise ZeroDivisionError) /\
  (forall nfeat p s, (0 <= nfeat)%Z ->
     Encoder.init nfeat 0 p s = Raise ZeroDivisionError) /\
  (forall nfeat nout p s, (0 <= nfeat)%Z ->
     MultiTask.init nfeat 0 nout p s = Raise ZeroDivisionError /\
     SingleTask.init nfeat 0 nout p s = Raise ZeroDivisionError).
Proof.
  split; [|split].
  - intros i b s Hi. now apply gc_init_zero_out.
  - intros nfeat p s Hf. unfold Encoder.init, bind.
    now rewrite (gc_init_zero_out IL).
  - intros nfeat nout p s Hf.
    unfold MultiTask.init, SingleTask.init, Encoder.init, bind.
    now rewrite (gc_init_zero_out IL).
Qed.

End ZeroHiddenSize.

Lemma zero_hidden_size_raises_witness :
  MultiTask.init (Sc := Rscalar) 3 0 2 (1 / 2)%R fresh_state
    = Raise ZeroDivisionError.
Proof.
  apply (proj1 (proj2 (proj2 (@zero_hidden_size_raises Rscalar
                                 Rscalar_init_laws)) 3%Z 2%Z (1 / 2)%R
                        fresh_state ltac:(lia))).
Defined.

(** ** Shapes that GraphConvolution.forward accepts and rejects *)

Section ForwardShapes.
Context {Sc : Scalar}.

Lemma gc_forward_vector_input (st : state) (g : GraphConvolution.t)
    (i o n : nat) (d : list num) (adj : tensor) :
  gc_wf st g i o ->
  GraphConvolution.forward g (Vec n d) adj st = Raise RuntimeError.
Proof.
  intros [Hw _]. unfold GraphConvolution.forward, bind.
  now rewrite (data_param _ _ _ Hw).
Qed.

Lemma gc_forward_width_mismatch (st : state) (g : GraphConvolution.t)
    (i o N k : nat) (dX : list (list num)) (adj : tensor) :
  gc_wf st g i o -> k <> i ->
  GraphConvolution.forward g (Mat N k dX) adj st = Raise RuntimeError.
Proof.
  intros [Hw _] Hk. unfold GraphConvolution.forward, bind.
  rewrite (data_param _ _ _ Hw).
  destruct (shape_at_param _ _ _ Hw) as [_ HW].
  destruct (shape_Mat _ _ _ HW) as [dW ->].
  unfold lift, Torch.mm. now destruct (Nat.eqb_spec k i).
Qed.

Lemma gc_forward_adj_mismatch (st : state) (g : GraphConvolution.t)
    (i o N : nat) (X adj : tensor) :
  gc_wf st g i o -> shape X = [N; i] ->
  (forall M, shape adj <> [M; N]) ->
  GraphConvolution.forward g X adj st = Raise RuntimeError.
Proof.
  intros [Hw _] HX Hadj. destruct (shape_Mat _ _ _ HX) as [dX ->].
  unfold GraphConvolution.forward, bind.
  rewrite (data_param _ _ _ Hw).
  destruct (shape_at_param _ _ _ Hw) as [_ HW].
  destruct (shape_Mat _ _ _ HW) as [dW ->].
  rewrite mm_run. unfold lift, Torch.spmm, Torch.mm, mtab at 1.
  destruct adj as [n d|M K dA]; [reflexivity|].
  destruct (Nat.eqb_spec K N) as [->|]; [|reflexivity].
  now destruct (Hadj M).
Qed.

(** X2.  For a layer whose parameters have the shapes (i, o) and (o),
    [forward] raises RuntimeError when the input is 1-D, when the input has
    a number of columns other than in_features, and when [adj] is not a
    2-D tensor with as many columns as the input has rows. *)
Theorem GraphConvolution_forward_shape_errors (st : state)
    (g : GraphConvolution.t) (i o : nat) :
  gc_wf st g i o ->
  (forall n d adj,
     GraphConvolution.forward g (Vec n d) adj st = Raise RuntimeError) /\
  (forall N k dX adj, k <> i ->
     GraphConvolution.forward g (Mat N k dX) adj st = Raise RuntimeError) /\
  (forall N X adj, shape X = [N; i] -> (forall M, shape adj <> [M; N]) ->
     GraphConvolution.forward g X adj st = Raise RuntimeError).
Proof.
  intros W. split; [|split].
  - intros n d adj. now apply (gc_forward_vector_input st g i o).
  - intros N k dX adj Hk. now apply (gc_forward_width_mismatch st g i o).
  - intros N X adj HX Hadj. now apply (gc_forward_adj_mismatch st g i o N).
Qed.

Lemma propagate_run_rect (M N i o : nat) (dX dA dW : list (list num)) :
  rbind (Torch.mm (Mat N i dX) (Mat i o dW))
        (fun support => Torch.spmm (Mat M N dA) support) =
  Ok (mtab M o (propagated N i (Mat M N dA) (Mat N i dX) (Mat i o dW))).
Proof.
  rewrite mm_run. cbn [rbind]. unfold Torch.spmm, mtab at 1.
  rewrite mm_run. f_equal. apply mtab_ext. intros r k Hr Hk.
  unfold propagated. apply sum_ext. intros j Hj. f_equal.
  apply (mget_mtab N o (fun i0 j0 => sum i (fun l =>
           mul (mget (Mat N i dX) i0 l) (mget (Mat i o dW) l j0))));
    assumption.
Qed.

Lemma gc_forward_run_rect (st : state) (g : GraphConvolution.t)
    (M N i o : nat) (X A : tensor) :
  gc_wf st g i o -> shape X = [N; i] -> shape A = [M; N] ->
  GraphConvolution.forward g X A st =
  Ok (gc_output_rect st g M N i o X A, st).
Proof.
  intros [Hw Hb] HX HA.
  destruct (shape_Mat _ _ _ HX) as [dX ->].
  destruct (shape_Mat _ _ _ HA) as [dA ->].
  unfold GraphConvolution.forward, gc_output_rect, bind.
  rewrite (data_param _ _ _ Hw).
  destruct (shape_at_param _ _ _ Hw) as [_ HW].
  destruct (shape_Mat _ _ _ HW) as [dW EW]. rewrite EW.
  pose proof (propagate_run_rect M N i o dX dA dW) as HP.
  unfold lift.
  destruct (Torch.mm (Mat N i dX) (Mat i o dW)) as [support|e];
    cbn [rbind] in HP; [|discriminate].
  rewrite HP.
  destruct (GraphConvolution.bias g) as [bl|]; [|reflexivity].
  rewrite (data_param _ _ _ Hb).
  destruct (shape_at_param _ _ _ Hb) as [_ HB].
  destruct (shape_Vec _ _ HB) as [db EB]. rewrite EB.
  now rewrite tadd_bias_run.
Qed.

Lemma shape_gc_output_rect st g M N i o X A :
  shape (gc_output_rect st g M N i o X A) = [M; o].
Proof. unfold gc_output_rect. now destruct (GraphConvolution.bias g). Qed.

(** X3.  One graph convolution takes any operator [A] of shape (M, N) on an
    input of N rows and returns M rows, with entries
    [(A * (X * W))(r, k) (+ b(k))]; the encoder, which applies [A] a second
    time to the M rows it got, raises RuntimeError unless M = N. *)
Theorem adjacency_shapes (st : state) (e : Encoder.t)
    (M N nfeat nhid : nat) (X A : tensor) :
  encoder_wf st e nfeat nhid ->
  valid_p (Encoder.dropout e) = true ->
  shape X = [N; nfeat] -> shape A = [M; N] ->
  GraphConvolution.forward (Encoder.gc1 e) X A st =
    Ok (gc_output_rect st (Encoder.gc1 e) M N nfeat nhid X A, st) /\
  shape (gc_output_rect st (Encoder.gc1 e) M N nfeat nhid X A) = [M; nhid] /\
  (M <> N -> Encoder.forward e X A st = Raise RuntimeError).
Proof.
  intros [W1 W2] Hp HX HA.
  split; [now apply gc_forward_run_rect|].
  split; [apply shape_gc_output_rect|].
  intros HMN. unfold Encoder.forward, bind.
  destruct (dropout_run X _ (Encoder.training e) st Hp)
    as (x1 & s1 & -> & Hx1 & Hs1).
  rewrite (gc_forward_run_rect s1 _ M N nfeat nhid);
    [| now apply (gc_wf_params st s1) | congruence | exact HA].
  unfold ret at 1.
  destruct (dropout_run
              (Torch.relu (gc_output_rect s1 (Encoder.gc1 e) M N nfeat nhid
                             x1 A))
              _ (Encoder.training e) s1 Hp) as (x2 & s2 & -> & Hx2 & Hs2).
  rewrite (gc_forward_adj_mismatch s2 _ nhid nhid M x2 A);
    [reflexivity
    | apply (gc_wf_params s1 s2), (gc_wf_params st s1); assumption
    | now rewrite Hx2, shape_relu, shape_gc_output_rect
    | intros M' HA'; rewrite HA in HA'; inversion HA'; congruence].
Qed.

End ForwardShapes.

Lemma GraphConvolution_forward_shape_errors_witness :
  GraphConvolution.forward (@gc_at 0 2 2 true)
    (@Mat Zscalar 3 1 [[1]; [2]; [3]]%Z) demo_A demo_state
  = Raise RuntimeError.
Proof.
  apply (proj1 (proj2 (@GraphConvolution_forward_shape_errors Zscalar
                         demo_state (gc_at 0 2 2 true) 2 2
                         ltac:(repeat split; reflexivity)))).
  discriminate.
Defined.

Lemma adjacency_shapes_witness :
  Encoder.forward (Encoder.eval (@encoder_at Zscalar 0 2 2 0%Z))
    demo_X demo_A_rect demo_state = Raise RuntimeError.
Proof.
  apply (proj2 (proj2 (@adjacency_shapes Zscalar demo_state
                         (Encoder.eval (@encoder_at Zscalar 0 2 2 0%Z))
                         2 3 2 2 demo_X demo_A_rect
                         ltac:(repeat split; reflexivity)
                         eq_refl eq_refl eq_refl))).
  discriminate.
Defined.

Example demo_rectangular_run :
  outcome (GraphConvolution.forward (@gc_at 0 2 2 true) demo_X demo_A_rect
             demo_state) =
  Ok (@Mat Zscalar 2 2 [[3; 0]; [6; -1]]%Z).
Proof. vm_compute. reflexivity. Qed.

(** ** The identity as propagation operator *)

Section IdentityAdjacency.
Context {Sc : Scalar}.
Hypothesis L : ScalarLaws Sc.

Lemma propagated_identity (N i : nat) (A X W : tensor) (r k : nat) :
  identity_matrix N A -> r < N ->
  propagated N i A X W r k = dense i X W r k.
Proof.
  intros [HS HE] Hr. unfold propagated, dense.
  rewrite (sum_ext N _ (fun j =>
             mul (if j =? r then one else zero)
                 (sum i (fun f => mul (mget X j f) (mget W f k)))))
    by (intros j Hj; now rewrite HE).
  apply (sum_delta_l L N r
           (fun j => sum i (fun f => mul (mget X j f) (mget W f k)))).
  exact Hr.
Qed.

(** X4.  With exact arithmetic and the identity as [adj], propagation does
    nothing: [forward] returns the dense transformation [X * W] plus the
    bias when there is one, that is, what [mm(X, W) (+ b)] returns. *)
Theorem GraphConvolution_identity_adjacency (st : state)
    (g : GraphConvolution.t) (N i o : nat) (X A : tensor) :
  gc_wf st g i o -> shape X = [N; i] -> identity_matrix N A ->
  let W := param st (GraphConvolution.weight g) in
  GraphConvolution.forward g X A st =
    Ok (match GraphConvolution.bias g with
        | Some bl => mtab N o (fun r k =>
                       add (dense i X W r k) (vget (param st bl) k))
        | None => mtab N o (dense i X W)
        end, st) /\
  GraphConvolution.forward g X A st =
    lift (rbind (Torch.mm X W) (fun y =>
            match GraphConvolution.bias g with
            | Some bl => Torch.tadd y (param st bl)
            | None => Ok y
            end)) st.
Proof.
  intros Wf HX HI W.
  assert (E : GraphConvolution.forward g X A st =
    Ok (match GraphConvolution.bias g with
        | Some bl => mtab N o (fun r k =>
                       add (dense i X W r k) (vget (param st bl) k))
        | None => mtab N o (dense i X W)
        end, st)).
  { rewrite (gc_forward_run st g N i o X A Wf HX (proj1 HI)).
    unfold gc_output. fold W. do 2 f_equal.
    destruct (GraphConvolution.bias g) as [bl|];
      apply mtab_ext; intros r k Hr Hk;
      now rewrite (propagated_identity N i A X W r k HI Hr). }
  split; [exact E|]. rewrite E.
  destruct Wf as [Hw Hb]. destruct (shape_at_param _ _ _ Hw) as [_ HW].
  fold W in HW.
  destruct (shape_Mat _ _ _ HX) as [dX ->].
  destruct (shape_Mat _ _ _ HW) as [dW EW]. rewrite EW.
  rewrite mm_run. cbn [rbind]. unfold dense.
  destruct (GraphConvolution.bias g) as [bl|]; [|reflexivity].
  destruct (shape_at_param _ _ _ Hb) as [_ HB].
  destruct (shape_Vec _ _ HB) as [db EB]. rewrite EB.
  now rewrite tadd_bias_run.
Qed.

End IdentityAdjacency.

Lemma GraphConvolution_identity_adjacency_witness :
  GraphConvolution.forward (@gc_at 0 2 2 true) demo_X demo_I demo_state =
  Ok (@Mat Zscalar 3 2 [[5; 0]; [-2; 1]; [8; -1]]%Z, demo_state).
Proof.
  refine (proj1 (@GraphConvolution_identity_adjacency Zscalar Zscalar_laws
                   demo_state (gc_at 0 2 2 true) 3 2 2 demo_X demo_I
                   _ eq_refl _)).
  - repeat split; reflexivity.
  - split; [reflexivity|].
    intros i j Hi Hj.
    destruct i as [|[|[|i]]]; [| | |lia];
      destruct j as [|[|[|j]]]; try lia; reflexivity.
Defined.

(** ** SingleTask *)

Section SingleTaskForward.
Context {Sc : Scalar}.
Hypothesis IL : InitLaws Sc.

Lemma singletask_forward_inv (m : SingleTask.t) (x adj H pred : tensor)
    (st st' : state) :
  SingleTask.forward m x adj st = Ok (H, pred, st') ->
  exists s1,
    Encoder.forward (SingleTask.encoder m) x adj st = Ok (H, s1) /\
    Discriminator.forward (SingleTask.discriminator m) H s1 = Ok (pred, st').
Proof.
  unfold SingleTask.forward, bind, ret.
  destruct (Encoder.forward _ x adj st) as [[h s1]|]; [|discriminate].
  destruct (Discriminator.forward _ h s1) as [[q s2]|] eqn:E;
    [|discriminate].
  intros HH. inversion HH; subst. now exists s1.
Qed.

Lemma singletask_forward_run (m : SingleTask.t) (N nfeat nhid nout : nat)
    (x adj : tensor) (st : state) :
  singletask_wf st m nfeat nhid nout ->
  valid_p (Encoder.dropout (SingleTask.encoder m)) = true ->
  valid_p (Discriminator.dropout (SingleTask.discriminator m)) = true ->
  shape x = [N; nfeat] -> shape adj = [N; N] ->
  exists H pred st',
    SingleTask.forward m x adj st = Ok (H, pred, st') /\
    shape H = [N; nhid] /\ shape pred = [N; nout].
Proof.
  intros (We & Wd) Pe Pd HX HA. unfold SingleTask.forward, bind, ret.
  destruct (encoder_forward_run st _ N _ _ x adj We Pe HX HA)
    as (H & s1 & -> & SH & E1).
  destruct (discriminator_forward_run s1 (SingleTask.discriminator m) N nhid
              nout H) as (pred & s2 & -> & Sp & E2);
    [now apply (discriminator_wf_params st) | exact Pd | exact SH |].
  now exists H, pred, s2.
Qed.

(** X5.  A constructed SingleTask model has an encoder nfeat -> nhid and
    one head nhid -> nout, on eight distinct parameters.  When [forward]
    returns (H, pred), H is what the encoder returned and pred what the
    head returned on that H; for X of shape (N, nfeat), A of shape (N, N)
    and a probability that dropout accepts, it returns, with shapes
    (N, nhid) and (N, nout). *)
Theorem SingleTask_forward_spec (nfeat nhid nout : Z) (p : num) (s0 : state) :
  (0 <= nfeat)%Z -> (0 < nhid)%Z -> (0 <= nout)%Z ->
  exists m s1,
    SingleTask.init nfeat nhid nout p s0 = Ok (m, s1) /\
    singletask_wf s1 m (Z.to_nat nfeat) (Z.to_nat nhid) (Z.to_nat nout) /\
    Linear.in_features (Discriminator.lr1 (SingleTask.discriminator m)) = nhid /\
    Linear.out_features (Discriminator.lr2 (SingleTask.discriminator m)) = nout /\
    NoDup (SingleTask.parameters m) /\
    length (SingleTask.parameters m) = 8 /\
    forall (tr : bool) (st : state) (x adj : tensor),
      let m' := if tr then m else SingleTask.eval m in
      (forall H pred st',
         SingleTask.forward m' x adj st = Ok (H, pred, st') ->
         exists s2,
           Encoder.forward (SingleTask.encoder m') x adj st = Ok (H, s2) /\
           Discriminator.forward (SingleTask.discriminator m') H s2
             = Ok (pred, st')) /\
      (singletask_wf st m (Z.to_nat nfeat) (Z.to_nat nhid) (Z.to_nat nout) ->
       forall N, valid_p p = true ->
         shape x = [N; Z.to_nat nfeat] -> shape adj = [N; N] ->
         exists H pred st',
           SingleTask.forward m' x adj st = Ok (H, pred, st') /\
           shape H = [N; Z.to_nat nhid] /\
           shape pred = [N; Z.to_nat nout]).
Proof.
  intros Hf Hh Ho.
  destruct (singletask_init_wf IL nfeat nhid nout p s0 Hf Hh Ho)
    as (s1 & E & _ & W).
  exists (singletask_at (length (params s0)) nfeat nhid nout p), s1.
  split; [exact E|]. split; [exact W|]. do 2 (split; [reflexivity|]).
  split; [|split].
  - cbn. repeat constructor; cbn; intuition lia.
  - reflexivity.
  - intros tr st x adj m'. split.
    + intros H pred st'. apply singletask_forward_inv.
    + intros Wst N Hp HX HA.
      apply (singletask_forward_run m' N (Z.to_nat nfeat));
        subst m'; destruct tr; assumption.
Qed.

End SingleTaskForward.

Lemma SingleTask_forward_spec_witness :
  exists m (s1 : @state Zscalar),
    SingleTask.init (Sc := Zscalar) 2 2 3 0%Z fresh_state = Ok (m, s1) /\
    exists H pred st',
      SingleTask.forward (SingleTask.eval m) demo_X demo_A demo_state
        = Ok (H, pred, st') /\
      shape H = [3; 2] /\ shape pred = [3; 3].
Proof.
  destruct (@SingleTask_forward_spec Zscalar Zscalar_init_laws 2 2 3 0%Z
              fresh_state)
    as (m & s1 & E & _ & _ & _ & _ & _ & F); [lia | lia | lia |].
  exists m, s1. split; [exact E|].
  assert (m = demo_singletask) as -> by (vm_compute in E; now inversion E).
  destruct (F false demo_state demo_X demo_A) as [_ G].
  apply (G ltac:(repeat split; reflexivity) 3); reflexivity.
Defined.

(** ** MultiTask as SingleTask plus the anomaly head *)

Section SingleInMulti.
Context {Sc : Scalar}.

(** X6.  A MultiTask forward pass is the forward pass of the SingleTask
    model made of its encoder and neighbor head, followed by the anomaly
    head on the embedding: same exceptions, same state threading.  So
    whenever MultiTask returns (H, pred_nc, pred_ad), that SingleTask
    model returns (H, pred_nc) from the same state. *)
Theorem MultiTask_extends_SingleTask (m : MultiTask.t) (x adj : tensor)
    (s : state) :
  MultiTask.forward m x adj s =
    bind (SingleTask.forward (single_of_multi m) x adj) (fun r =>
      bind (Discriminator.forward (MultiTask.dis_anomlay m) (fst r))
        (fun pred_ad => ret (fst r, snd r, pred_ad))) s /\
  forall H nc ad s',
    MultiTask.forward m x adj s = Ok (H, nc, ad, s') ->
    exists s2,
      SingleTask.forward (single_of_multi m) x adj s = Ok (H, nc, s2) /\
      Discriminator.forward (MultiTask.dis_anomlay m) H s2 = Ok (ad, s').
Proof.
  assert (E : MultiTask.forward m x adj s =
    bind (SingleTask.forward (single_of_multi m) x adj) (fun r =>
      bind (Discriminator.forward (MultiTask.dis_anomlay m) (fst r))
        (fun pred_ad => ret (fst r, snd r, pred_ad))) s).
  { unfold MultiTask.forward, SingleTask.forward, single_of_multi, bind, ret.
    cbn [SingleTask.encoder SingleTask.discriminator].
    destruct (Encoder.forward _ x adj s) as [[h s1]|]; [|reflexivity].
    destruct (Discriminator.forward (MultiTask.dis_neighbor m) h s1)
      as [[n s2]|]; reflexivity. }
  split; [exact E|].
  intros H nc ad s'. rewrite E. unfold bind, ret.
  destruct (SingleTask.forward _ x adj s) as [[[h n] s2]|]; [|discriminate].
  cbn [fst snd].
  destruct (Discriminator.forward _ h s2) as [[a s3]|] eqn:D; [|discriminate].
  intros HH. inversion HH; subst. now exists s2.
Qed.

End SingleInMulti.

Lemma MultiTask_extends_SingleTask_witness :
  exists s2,
    SingleTask.forward (single_of_multi demo_multitask) demo_X demo_A
      demo_state
    = Ok (@Mat Zscalar 3 2 [[11; 15]; [17; 21]; [14; 18]]%Z,
          @Mat Zscalar 3 3 [[8; 17; -6]; [14; 29; -12]; [11; 23; -9]]%Z, s2)
    /\ Discriminator.forward (MultiTask.dis_anomlay demo_multitask)
         (@Mat Zscalar 3 2 [[11; 15]; [17; 21]; [14; 18]]%Z) s2
       = Ok (@Mat Zscalar 3 2 [[42; -31]; [60; -49]; [51; -40]]%Z,
             demo_state).
Proof.
  apply (proj2 (@MultiTask_extends_SingleTask Zscalar demo_multitask demo_X
                  demo_A demo_state)).
  reflexivity.
Defined.

(** ** What each output depends on *)

Section NonInterference.
Context {Sc : Scalar}.

Lemma agree_on_incl (wg : bool) (locs locs' : list loc) (s1 s2 : state) :
  incl locs locs' -> agree_on wg locs' s1 s2 -> agree_on wg locs s1 s2.
Proof. intros Hi [Hg Hl]. split; [exact Hg|]. intros l Hin. apply Hl, Hi, Hin. Qed.

Lemma agree_on_params (wg : bool) (locs : list loc) (s1 s2 t1 t2 : state) :
  agree_on wg locs s1 s2 ->
  (wg = true -> gen t1 = gen t2) ->
  params t1 = params s1 -> params t2 = params s2 ->
  agree_on wg locs t1 t2.
Proof.
  intros [_ Hl] Hg E1 E2. split; [exact Hg|]. rewrite E1, E2. exact Hl.
Qed.

Lemma ro_incl {A} (wg : bool) (locs locs' : list loc) (m : M A) :
  incl locs locs' -> reads_only wg locs m -> reads_only wg locs' m.
Proof. intros Hi Hm s1 s2 Ha. apply Hm. exact (agree_on_incl _ _ _ _ _ Hi Ha). Qed.

Lemma ro_ret {A} (wg : bool) (locs : list loc) (a : A) :
  reads_only wg locs (ret a).
Proof. intros s1 s2 [Hg _]. cbn. auto. Qed.

Lemma ro_lift {A} (wg : bool) (locs : list loc) (r : result A) :
  reads_only wg locs (lift r).
Proof. intros s1 s2 [Hg _]. unfold lift. destruct r; cbn; auto. Qed.

Lemma ro_bind {A B} (wg : bool) (locs : list loc) (m : M A) (k : A -> M B) :
  reads_only wg locs m -> (forall a, reads_only wg locs (k a)) ->
  reads_only wg locs (bind m k).
Proof.
  intros Hm Hk s1 s2 Ha. unfold bind. specialize (Hm s1 s2 Ha).
  destruct (m s1) as [[a1 t1]|e1], (m s2) as [[a2 t2]|e2];
    try contradiction; [|exact Hm].
  destruct Hm as (-> & Hg & E1 & E2).
  specialize (Hk a2 t1 t2 (agree_on_params _ _ _ _ _ _ Ha Hg E1 E2)).
  destruct (k a2 t1) as [[b1 u1]|], (k a2 t2) as [[b2 u2]|];
    try contradiction; [|exact Hk].
  destruct Hk as (-> & Hg' & F1 & F2).
  split; [reflexivity|]. split; [exact Hg'|]. split; congruence.
Qed.

Lemma ro_data (wg : bool) (locs : list loc) (l : loc) :
  In l locs -> reads_only wg locs (Torch.data l).
Proof.
  intros Hin s1 s2 [Hg Hl]. unfold Torch.data. rewrite (Hl l Hin).
  destruct (nth_error (params s2) l); cbn; auto.
Qed.

Lemma ro_dropout (wg : bool) (locs : list loc) (x : tensor) (p : num)
    (tr : bool) :
  wg = true \/ tr = false -> reads_only wg locs (Torch.dropout x p tr).
Proof.
  intros Hc s1 s2 [Hg _]. unfold Torch.dropout.
  destruct (ltb p zero || ltb one p); [reflexivity|].
  destruct (negb tr || Torch.eqb p zero || (Torch.numel x =? 0)) eqn:E;
    [cbn; auto|].
  destruct Hc as [->| ->]; [|discriminate E].
  specialize (Hg eq_refl).
  destruct (Torch.eqb p one); cbn; [auto|].
  rewrite Hg. auto.
Qed.

Lemma ro_gc_forward (wg : bool) (g : GraphConvolution.t) (x adj : tensor) :
  reads_only wg (GraphConvolution.parameters g)
    (GraphConvolution.forward g x adj).
Proof.
  unfold GraphConvolution.forward, GraphConvolution.parameters.
  apply ro_bind; [apply ro_data; now left|intros w].
  apply ro_bind; [apply ro_lift|intros support].
  apply ro_bind; [apply ro_lift|intros output].
  destruct (GraphConvolution.bias g) as [bl|]; [|apply ro_ret].
  apply ro_bind; [apply ro_data; right; now left|intros b]. apply ro_lift.
Qed.

Lemma ro_linear_forward (wg : bool) (l : Linear.t) (x : tensor) :
  reads_only wg (Linear.parameters l) (Linear.forward l x).
Proof.
  unfold Linear.forward, Linear.parameters.
  apply ro_bind; [apply ro_data; now left|intros w].
  apply ro_bind; [apply ro_data; right; now left|intros b]. apply ro_lift.
Qed.

Lemma ro_encoder_forward (wg : bool) (e : Encoder.t) (x adj : tensor) :
  wg = true \/ Encoder.training e = false ->
  reads_only wg (Encoder.parameters e) (Encoder.forward e x adj).
Proof.
  intros Hc. unfold Encoder.forward, Encoder.parameters.
  apply ro_bind; [now apply ro_dropout|intros x1].
  apply ro_bind; [|intros x2].
  { apply ro_bind; [|intros; apply ro_ret].
    apply (ro_incl wg (GraphConvolution.parameters (Encoder.gc1 e)));
      [apply incl_appl, incl_refl|apply ro_gc_forward]. }
  apply ro_bind; [now apply ro_dropout|intros x3].
  apply ro_bind; [|intros; apply ro_ret].
  apply (ro_incl wg (GraphConvolution.parameters (Encoder.gc2 e)));
    [apply incl_appr, incl_refl|apply ro_gc_forward].
Qed.

Lemma ro_discriminator_forward (wg : bool) (d : Discriminator.t)
    (x : tensor) :
  wg = true \/ Discriminator.training d = false ->
  reads_only wg (Discriminator.parameters d) (Discriminator.forward d x).
Proof.
  intros Hc. unfold Discriminator.forward, Discriminator.parameters.
  apply ro_bind; [now apply ro_dropout|intros x1].
  apply ro_bind; [|intros x2].
  { apply ro_bind; [|intros; apply ro_ret].
    apply (ro_incl wg (Linear.parameters (Discriminator.lr1 d)));
      [apply incl_appl, incl_refl|apply ro_linear_forward]. }
  apply ro_bind; [now apply ro_dropout|intros x3].
  apply ro_bind; [|intros; apply ro_ret].
  apply (ro_incl wg (Linear.parameters (Discriminator.lr2 d)));
    [apply incl_appr, incl_refl|apply ro_linear_forward].
Qed.

(** X7.  Take two runs of a MultiTask forward pass on the same inputs that
    both return.  If they start with the same generator and the same
    encoder and neighbor-head parameters, they return the same embedding
    and the same neighbor logits, whatever the anomaly head holds, in
    either mode.  In inference mode, if the encoder and anomaly-head
    parameters are the same, they return the same embedding and the same
    anomaly logits, whatever the neighbor head holds. *)
Theorem heads_do_not_interfere (m : MultiTask.t) (x adj : tensor)
    (s1 s2 t1 t2 : state) (H1 nc1 ad1 H2 nc2 ad2 : tensor) :
  MultiTask.forward m x adj s1 = Ok (H1, nc1, ad1, t1) ->
  MultiTask.forward m x adj s2 = Ok (H2, nc2, ad2, t2) ->
  (agree_on true
     (Encoder.parameters (MultiTask.encoder m) ++
      Discriminator.parameters (MultiTask.dis_neighbor m)) s1 s2 ->
   H1 = H2 /\ nc1 = nc2) /\
  (Encoder.training (MultiTask.encoder m) = false ->
   Discriminator.training (MultiTask.dis_anomlay m) = false ->
   agree_on false
     (Encoder.parameters (MultiTask.encoder m) ++
      Discriminator.parameters (MultiTask.dis_anomlay m)) s1 s2 ->
   H1 = H2 /\ ad1 = ad2).
Proof.
  intros F1 F2.
  destruct (multitask_forward_inv m x adj H1 nc1 ad1 s1 t1 F1)
    as (u1 & v1 & E1 & N1 & A1).
  destruct (multitask_forward_inv m x adj H2 nc2 ad2 s2 t2 F2)
    as (u2 & v2 & E2 & N2 & A2).
  split.
  - intros Ha.
    pose proof (ro_encoder_forward true (MultiTask.encoder m) x adj
                  (or_introl eq_refl) s1 s2
                  (agree_on_incl _ _ _ _ _ (incl_appl _ (incl_refl _)) Ha))
      as RE.
    rewrite E1, E2 in RE. destruct RE as (-> & Hg & P1 & P2).
    split; [reflexivity|].
    pose proof (ro_discriminator_forward true (MultiTask.dis_neighbor m) H2
                  (or_introl eq_refl) u1 u2) as RN.
    rewrite N1, N2 in RN. apply RN.
    apply (agree_on_params true _ s1 s2); [|exact Hg|exact P1|exact P2].
    exact (agree_on_incl _ _ _ _ _ (incl_appr _ (incl_refl _)) Ha).
  - intros Te Ta Ha.
    pose proof (ro_encoder_forward false (MultiTask.encoder m) x adj
                  (or_intror Te) s1 s2
                  (agree_on_incl _ _ _ _ _ (incl_appl _ (incl_refl _)) Ha))
      as RE.
    rewrite E1, E2 in RE. destruct RE as (-> & Hg & P1 & P2).
    split; [reflexivity|].
    pose proof (ro_discriminator_forward false (MultiTask.dis_anomlay m) H2
                  (or_intror Ta) v1 v2) as RA.
    rewrite A1, A2 in RA. apply RA.
    apply (agree_on_params false _ s1 s2); [|discriminate| |].
    + exact (agree_on_incl _ _ _ _ _ (incl_appr _ (incl_refl _)) Ha).
    + rewrite (keeps_discriminator_forward _ _ _ _ _ N1). exact P1.
    + rewrite (keeps_discriminator_forward _ _ _ _ _ N2). exact P2.
Qed.

End NonInterference.

Lemma heads_do_not_interfere_witness :
  @Mat Zscalar 3 2 [[11; 15]; [17; 21]; [14; 18]]%Z
    = @Mat Zscalar 3 2 [[11; 15]; [17; 21]; [14; 18]]%Z /\
  @Mat Zscalar 3 3 [[8; 17; -6]; [14; 29; -12]; [11; 23; -9]]%Z
    = @Mat Zscalar 3 3 [[8; 17; -6]; [14; 29; -12]; [11; 23; -9]]%Z.
Proof.
  refine (proj1 (@heads_do_not_interfere Zscalar demo_multitask demo_X demo_A
                   demo_state demo_state_anomaly_trained
                   demo_state demo_state_anomaly_trained
                   _ _ (@Mat Zscalar 3 2 [[42; -31]; [60; -49]; [51; -40]]%Z)
                   _ _ (@Mat Zscalar 3 2 [[20; 14]; [92; 32]; [56; 23]]%Z)
                   eq_refl eq_refl) _).
  split; [reflexivity|].
  intros l Hl. cbn in Hl.
  repeat (destruct Hl as [<-|Hl]; [reflexivity|]). contradiction.
Defined.

(** ** reset_parameters on a layer that already holds values *)

Section ResetParameters.
Context {Sc : Scalar}.
Hypothesis IL : InitLaws Sc.

Lemma nth_error_update_same {A} (l : list A) (i : nat) (v : A) :
  i < length l -> nth_error (Torch.update l i v) i = Some v.
Proof.
  revert i. induction l as [|a l IH]; intros [|i] Hi; cbn in *;
    try lia; [reflexivity|]. apply IH. lia.
Qed.

Lemma nth_error_update_other {A} (l : list A) (i j : nat) (v : A) :
  j <> i -> nth_error (Torch.update l i v) j = nth_error l j.
Proof.
  revert i j. induction l as [|a l IH]; intros [|i] [|j] Hij; cbn;
    try reflexivity; try lia. apply IH. lia.
Qed.

Lemma length_update {A} (l : list A) (i : nat) (v : A) :
  length (Torch.update l i v) = length l.
Proof.
  revert i. induction l as [|a l IH]; intros [|i]; cbn; try reflexivity.
  now rewrite IH.
Qed.

Lemma param_of_nth_error (st : state) (l : loc) (x : tensor) :
  nth_error (params st) l = Some x -> param st l = x.
Proof. intros H. unfold param. now apply nth_error_nth. Qed.

(** X8.  [reset_parameters] on a layer whose parameters have the shapes
    (i, o) and (o), o > 0, whatever values they hold: it returns, every
    weight entry (r, c) is then the sample made from the generator's draw
    number r * o + c and every bias entry k the one from draw number
    i * o + k, with bounds -stdv and stdv = 1 / sqrt(o); nothing of the
    old values remains.  Every other parameter of the store is left as it
    was, and the generator has advanced by one draw per entry. *)
Theorem reset_parameters_overwrites (st : state) (g : GraphConvolution.t)
    (i o : nat) :
  gc_wf st g i o -> 0 < o ->
  let sd := stdv (Z.of_nat o) in
  exists st',
    GraphConvolution.reset_parameters g st = Ok (tt, st') /\
    param st' (GraphConvolution.weight g) =
      mtab i o (fun r c => drawn (gen st) (neg sd) sd (r * o + c)) /\
    match GraphConvolution.bias g with
    | Some bl =>
        param st' bl =
          vtab o (fun k => drawn (gen st) (neg sd) sd (i * o + k))
    | None => True
    end /\
    (forall l, l <> GraphConvolution.weight g ->
               Some l <> GraphConvolution.bias g ->
               nth_error (params st') l = nth_error (params st) l) /\
    length (params st') = length (params st) /\
    offset (gen st') =
      offset (gen st) +
      (i * o + match GraphConvolution.bias g with Some _ => o | None => 0 end).
Proof.
  intros [Hw Hb] Ho sd.
  assert (HoZ : (0 < Z.of_nat o)%Z) by lia.
  destruct (shape_at_param _ _ _ Hw) as [Ew HW].
  destruct (shape_Mat _ _ _ HW) as [dW EW].
  unfold GraphConvolution.reset_parameters, bind.
  rewrite (data_param _ _ _ Hw), EW.
  cbn [Torch.size shape nth_error lift].
  rewrite (pydiv_run IL _ _ HoZ). fold sd.
  rewrite EW in Ew.
  rewrite (uniform_run st _ _ (neg sd) sd Ew (bound_ordered IL HoZ)).
  assert (Hlen : GraphConvolution.weight g < length (params st))
    by (apply nth_error_Some; congruence).
  destruct (GraphConvolution.bias g) as [bl|].
  - destruct (shape_at_param _ _ _ Hb) as [Eb HB].
    destruct (shape_Vec _ _ HB) as [db EB]. rewrite EB in Eb.
    assert (Hne : bl <> GraphConvolution.weight g).
    { intros ->. rewrite Ew in Eb. discriminate. }
    erewrite uniform_run;
      [| cbn [params]; rewrite nth_error_update_other by exact Hne; exact Eb
       | exact (bound_ordered IL HoZ)].
    eexists. split; [reflexivity|]. cbn [params gen].
    assert (Hlb : bl < length (params st))
      by (apply nth_error_Some; congruence).
    split; [|split; [|split; [|split]]].
    + apply param_of_nth_error. cbn [params].
      rewrite nth_error_update_other by congruence.
      now rewrite nth_error_update_same.
    + apply param_of_nth_error. cbn [params].
      rewrite nth_error_update_same by (rewrite length_update; exact Hlb).
      f_equal. unfold Torch.tmapi. apply vtab_ext. intros k Hk.
      unfold drawn, Torch.advance. cbn [stream offset Torch.numel].
      now rewrite Nat.add_assoc.
    + intros l Hl1 Hl2.
      rewrite nth_error_update_other by congruence.
      now rewrite nth_error_update_other.
    + now rewrite !length_update.
    + cbn [Torch.advance offset stream Torch.numel]. lia.
  - unfold ret. eexists. split; [reflexivity|]. cbn [params gen].
    split; [|split; [exact I|split; [|split]]].
    + apply param_of_nth_error. cbn [params].
      now rewrite nth_error_update_same.
    + intros l Hl1 _. now rewrite nth_error_update_other.
    + now rewrite length_update.
    + cbn [Torch.advance offset stream Torch.numel]. lia.
Qed.

End ResetParameters.

Lemma reset_parameters_overwrites_witness :
  exists st',
    GraphConvolution.reset_parameters (@gc_at 0 2 2 true) demo_state
      = Ok (tt, st') /\
    param st' 0 = @Mat Zscalar 2 2 [[-1; -1]; [-1; -1]]%Z /\
    param st' 2 = @Mat Zscalar 2 2 [[1; 1]; [-1; 2]]%Z.
Proof.
  destruct (@reset_parameters_overwrites Zscalar Zscalar_init_laws demo_state
              (gc_at 0 2 2 true) 2 2 ltac:(repeat split; reflexivity)
              ltac:(lia))
    as (st' & E & W & _ & F & _).
  exists st'. split; [exact E|]. split; [exact W|].
  apply param_of_nth_error.
  rewrite (F 2); [reflexivity|discriminate|discriminate].
Defined.

(** ** What the constructors allocate *)

Section Allocation.
Context {Sc : Scalar}.
Hypothesis IL : InitLaws Sc.

(** X9.  A constructor never touches the parameters that exist already:
    the store it leaves is the old one followed by the new parameters, 1 or
    2 for a GraphConvolution, 4 for an Encoder or a Discriminator, 8 for a
    SingleTask and 12 for a MultiTask model, and the parameters of the new
    module are exactly these new locations, in order. *)
Theorem constructors_allocate (s : state) :
  (forall i o b, (0 <= i)%Z -> (0 < o)%Z ->
     exists g s', GraphConvolution.init i o b s = Ok (g, s') /\
       extends s s' (if b then 2 else 1) /\
       GraphConvolution.parameters g
         = seq (length (params s)) (if b then 2 else 1)) /\
  (forall nfeat nhid p, (0 <= nfeat)%Z -> (0 < nhid)%Z ->
     exists e s', Encoder.init nfeat nhid p s = Ok (e, s') /\
       extends s s' 4 /\
       Encoder.parameters e = seq (length (params s)) 4) /\
  (forall nin nout p, (0 <= nin)%Z -> (0 <= nout)%Z ->
     exists d s', Discriminator.init nin nout p s = Ok (d, s') /\
       extends s s' 4 /\
       Discriminator.parameters d = seq (length (params s)) 4) /\
  (forall nfeat nhid nout p, (0 <= nfeat)%Z -> (0 < nhid)%Z -> (0 <= nout)%Z ->
     (exists m s', SingleTask.init nfeat nhid nout p s = Ok (m, s') /\
        extends s s' 8 /\
        SingleTask.parameters m = seq (length (params s)) 8) /\
     (exists m s', MultiTask.init nfeat nhid nout p s = Ok (m, s') /\
        extends s s' 12 /\
        MultiTask.parameters m = seq (length (params s)) 12)).
Proof.
  split; [|split; [|split]].
  - intros i o b Hi Ho.
    destruct (gc_init_wf IL i o b s Hi Ho) as (s' & E & X & _).
    eexists _, s'. split; [exact E|]. split; [exact X|]. now destruct b.
  - intros nfeat nhid p Hf Hh.
    destruct (encoder_init_wf IL nfeat nhid p s Hf Hh) as (s' & E & X & _).
    eexists _, s'. split; [exact E|]. split; [exact X|].
    cbv [MultiTask.parameters SingleTask.parameters Encoder.parameters
         Discriminator.parameters GraphConvolution.parameters
         Linear.parameters multitask_at singletask_at encoder_at
         discriminator_at gc_at linear_at MultiTask.encoder
         MultiTask.dis_neighbor MultiTask.dis_anomlay SingleTask.encoder
         SingleTask.discriminator Encoder.gc1 Encoder.gc2 Discriminator.lr1
         Discriminator.lr2 GraphConvolution.weight GraphConvolution.bias
         Linear.weight Linear.bias app seq].
    repeat f_equal; lia.
  - intros nin nout p Hi Ho.
    destruct (discriminator_init_wf IL nin nout p s Hi Ho)
      as (s' & E & X & _).
    eexists _, s'. split; [exact E|]. split; [exact X|].
    cbv [MultiTask.parameters SingleTask.parameters Encoder.parameters
         Discriminator.parameters GraphConvolution.parameters
         Linear.parameters multitask_at singletask_at encoder_at
         discriminator_at gc_at linear_at MultiTask.encoder
         MultiTask.dis_neighbor MultiTask.dis_anomlay SingleTask.encoder
         SingleTask.discriminator Encoder.gc1 Encoder.gc2 Discriminator.lr1
         Discriminator.lr2 GraphConvolution.weight GraphConvolution.bias
         Linear.weight Linear.bias app seq].
    repeat f_equal; lia.
  - intros nfeat nhid nout p Hf Hh Ho. split.
    + destruct (singletask_init_wf IL nfeat nhid nout p s Hf Hh Ho)
        as (s' & E & X & _).
      eexists _, s'. split; [exact E|]. split; [exact X|].
      cbv [MultiTask.parameters SingleTask.parameters Encoder.parameters
         Discriminator.parameters GraphConvolution.parameters
         Linear.parameters multitask_at singletask_at encoder_at
         discriminator_at gc_at linear_at MultiTask.encoder
         MultiTask.dis_neighbor MultiTask.dis_anomlay SingleTask.encoder
         SingleTask.discriminator Encoder.gc1 Encoder.gc2 Discriminator.lr1
         Discriminator.lr2 GraphConvolution.weight GraphConvolution.bias
         Linear.weight Linear.bias app seq].
    repeat f_equal; lia.
    + destruct (multitask_init_wf IL nfeat nhid nout p s Hf Hh Ho)
        as (s' & E & X & _).
      eexists _, s'. split; [exact E|]. split; [exact X|].
      cbv [MultiTask.parameters SingleTask.parameters Encoder.parameters
         Discriminator.parameters GraphConvolution.parameters
         Linear.parameters multitask_at singletask_at encoder_at
         discriminator_at gc_at linear_at MultiTask.encoder
         MultiTask.dis_neighbor MultiTask.dis_anomlay SingleTask.encoder
         SingleTask.discriminator Encoder.gc1 Encoder.gc2 Discriminator.lr1
         Discriminator.lr2 GraphConvolution.weight GraphConvolution.bias
         Linear.weight Linear.bias app seq].
    repeat f_equal; lia.
Qed.

End Allocation.

Lemma constructors_allocate_witness :
  exists m (s' : @state Rscalar),
    MultiTask.init (Sc := Rscalar) 3 5 2 (1 / 2)%R fresh_state = Ok (m, s') /\
    extends fresh_state s' 12 /\
    MultiTask.parameters m = seq 0 12.
Proof.
  apply (proj2 (proj2 (proj2 (proj2 (@constructors_allocate Rscalar
                  Rscalar_init_laws fresh_state)))
                  3%Z 5%Z 2%Z (1 / 2)%R ltac:(lia) ltac:(lia) ltac:(lia))).
Defined.

(** ** The mode, the generator and a zero dropout *)

Section ModeAndGenerator.
Context {Sc : Scalar}.

Lemma ks_ret {A} (a : A) : keeps_state (ret a).
Proof. intros s a' s' H. now inversion H. Qed.

Lemma ks_lift {A} (r : result A) : keeps_state (lift r).
Proof. intros s a s' H. unfold lift in H. destruct r; now inversion H. Qed.

Lemma ks_bind {A B} (m : M A) (k : A -> M B) :
  keeps_state m -> (forall a, keeps_state (k a)) -> keeps_state (bind m k).
Proof.
  intros Hm Hk s b s' H. unfold bind in H.
  destruct (m s) as [[a s1]|] eqn:E; [|discriminate].
  rewrite (Hk a s1 b s' H). now apply (Hm s a s1).
Qed.

Lemma ks_data (l : loc) : keeps_state (Torch.data l).
Proof.
  intros s a s' H. unfold Torch.data in H.
  destruct (nth_error (params s) l); now inversion H.
Qed.

Lemma ks_dropout (x : tensor) (p : num) (tr : bool) :
  tr = false \/ Torch.eqb p zero = true ->
  keeps_state (Torch.dropout x p tr).
Proof.
  intros Hc s a s' H. unfold Torch.dropout in H.
  destruct (ltb p zero || ltb one p); [discriminate|].
  replace (negb tr || Torch.eqb p zero || (Torch.numel x =? 0)) with true
    in H; [now inversion H|].
  destruct Hc as [->| ->]; [reflexivity|]. now rewrite orb_true_r.
Qed.

Create HintDb state.
#[local] Hint Resolve ks_ret ks_lift ks_bind ks_data ks_dropout : state.
#[local] Hint Opaque keeps_state : state.

Lemma ks_gc_forward (g : GraphConvolution.t) (x adj : tensor) :
  keeps_state (GraphConvolution.forward g x adj).
Proof.
  unfold GraphConvolution.forward.
  destruct (GraphConvolution.bias g); auto 8 with state.
Qed.

Lemma ks_linear_forward (l : Linear.t) (x : tensor) :
  keeps_state (Linear.forward l x).
Proof. unfold Linear.forward. auto with state. Qed.

#[local] Hint Resolve ks_gc_forward ks_linear_forward : state.

Lemma ks_encoder_forward (e : Encoder.t) (x adj : tensor) :
  Encoder.training e = false \/ Torch.eqb (Encoder.dropout e) zero = true ->
  keeps_state (Encoder.forward e x adj).
Proof. intros H. unfold Encoder.forward. auto 8 with state. Qed.

Lemma ks_discriminator_forward (d : Discriminator.t) (x : tensor) :
  Discriminator.training d = false \/
  Torch.eqb (Discriminator.dropout d) zero = true ->
  keeps_state (Discriminator.forward d x).
Proof. intros H. unfold Discriminator.forward. auto 8 with state. Qed.

#[local] Hint Resolve ks_encoder_forward ks_discriminator_forward : state.

(** X10.  In inference mode, and in any mode when the dropout probability
    is 0, a forward pass that returns leaves the whole state as it found
    it: no parameter is written and no draw of the generator is
    consumed. *)
Theorem inference_consumes_no_randomness :
  (forall (e : Encoder.t) x adj s y s',
     Encoder.training e = false \/
     Torch.eqb (Encoder.dropout e) zero = true ->
     Encoder.forward e x adj s = Ok (y, s') -> s' = s) /\
  (forall (d : Discriminator.t) x s y s',
     Discriminator.training d = false \/
     Torch.eqb (Discriminator.dropout d) zero = true ->
     Discriminator.forward d x s = Ok (y, s') -> s' = s) /\
  (forall (m : MultiTask.t) x adj s y s',
     Encoder.training (MultiTask.encoder m) = false \/
     Torch.eqb (Encoder.dropout (MultiTask.encoder m)) zero = true ->
     Discriminator.training (MultiTask.dis_neighbor m) = false \/
     Torch.eqb (Discriminator.dropout (MultiTask.dis_neighbor m)) zero
       = true ->
     Discriminator.training (MultiTask.dis_anomlay m) = false \/
     Torch.eqb (Discriminator.dropout (MultiTask.dis_anomlay m)) zero
       = true ->
     MultiTask.forward m x adj s = Ok (y, s') -> s' = s) /\
  (forall (m : SingleTask.t) x adj s y s',
     Encoder.training (SingleTask.encoder m) = false \/
     Torch.eqb (Encoder.dropout (SingleTask.encoder m)) zero = true ->
     Discriminator.training (SingleTask.discriminator m) = false \/
     Torch.eqb (Discriminator.dropout (SingleTask.discriminator m)) zero
       = true ->
     SingleTask.forward m x adj s = Ok (y, s') -> s' = s).
Proof.
  split; [|split; [|split]].
  - intros e x adj s y s' H. now apply ks_encoder_forward.
  - intros d x s y s' H. now apply ks_discriminator_forward.
  - intros m x adj s y s' He Hn Ha.
    assert (K : keeps_state (MultiTask.forward m x adj))
      by (unfold MultiTask.forward; auto 8 with state).
    apply K.
  - intros m x adj s y s' He Hd.
    assert (K : keeps_state (SingleTask.forward m x adj))
      by (unfold SingleTask.forward; auto 8 with state).
    apply K.
Qed.

Lemma dropout_zero_mode (x : tensor) (p : num) (tr : bool) (s : state) :
  Torch.eqb p zero = true ->
  Torch.dropout x p tr s = Torch.dropout x p false s.
Proof.
  intros H. unfold Torch.dropout. rewrite H.
  destruct (ltb p zero || ltb one p); [reflexivity|].
  cbn [negb orb]. now rewrite orb_true_r.
Qed.

Lemma encoder_zero_mode (e : Encoder.t) (x adj : tensor) (s : state) :
  Torch.eqb (Encoder.dropout e) zero = true ->
  Encoder.forward e x adj s = Encoder.forward (Encoder.eval e) x adj s.
Proof.
  intros H. unfold Encoder.forward, bind.
  cbn [Encoder.eval Encoder.training Encoder.dropout Encoder.gc1 Encoder.gc2].
  rewrite (dropout_zero_mode x _ (Encoder.training e) s H).
  destruct (Torch.dropout x _ false s) as [[x1 s1]|]; [|reflexivity].
  destruct (GraphConvolution.forward _ x1 adj s1) as [[x2 s2]|];
    [|reflexivity].
  unfold ret at 1 3.
  now rewrite (dropout_zero_mode _ _ (Encoder.training e) s2 H).
Qed.

Lemma discriminator_zero_mode (d : Discriminator.t) (x : tensor) (s : state) :
  Torch.eqb (Discriminator.dropout d) zero = true ->
  Discriminator.forward d x s =
  Discriminator.forward (Discriminator.eval d) x s.
Proof.
  intros H. unfold Discriminator.forward, bind.
  cbn [Discriminator.eval Discriminator.training Discriminator.dropout
       Discriminator.lr1 Discriminator.lr2].
  rewrite (dropout_zero_mode _ _ (Discriminator.training d) s H).
  destruct (Torch.dropout _ _ false s) as [[x1 s1]|]; [|reflexivity].
  destruct (Linear.forward _ x1 s1) as [[x2 s2]|]; [|reflexivity].
  unfold ret at 1 3.
  now rewrite (dropout_zero_mode _ _ (Discriminator.training d) s2 H).
Qed.

(** X11.  With a dropout probability equal to 0 the mode does not matter:
    a model in training mode returns (or raises) exactly what the same
    model returns (or raises) after [eval()]. *)
Theorem zero_dropout_ignores_mode :
  (forall (e : Encoder.t) x adj s,
     Torch.eqb (Encoder.dropout e) zero = true ->
     Encoder.forward e x adj s = Encoder.forward (Encoder.eval e) x adj s) /\
  (forall (d : Discriminator.t) x s,
     Torch.eqb (Discriminator.dropout d) zero = true ->
     Discriminator.forward d x s =
     Discriminator.forward (Discriminator.eval d) x s) /\
  (forall (m : MultiTask.t) x adj s,
     Torch.eqb (Encoder.dropout (MultiTask.encoder m)) zero = true ->
     Torch.eqb (Discriminator.dropout (MultiTask.dis_neighbor m)) zero
       = true ->
     Torch.eqb (Discriminator.dropout (MultiTask.dis_anomlay m)) zero
       = true ->
     MultiTask.forward m x adj s =
     MultiTask.forward (MultiTask.eval m) x adj s) /\
  (forall (m : SingleTask.t) x adj s,
     Torch.eqb (Encoder.dropout (SingleTask.encoder m)) zero = true ->
     Torch.eqb (Discriminator.dropout (SingleTask.discriminator m)) zero
       = true ->
     SingleTask.forward m x adj s =
     SingleTask.forward (SingleTask.eval m) x adj s).
Proof.
  split; [|split; [|split]].
  - intros e x adj s. apply encoder_zero_mode.
  - intros d x s. apply discriminator_zero_mode.
  - intros m x adj s He Hn Ha. unfold MultiTask.forward, bind.
    cbn [MultiTask.eval MultiTask.encoder MultiTask.dis_neighbor
         MultiTask.dis_anomlay].
    rewrite (encoder_zero_mode _ x adj s He).
    destruct (Encoder.forward _ x adj s) as [[h s1]|]; [|reflexivity].
    rewrite (discriminator_zero_mode _ h s1 Hn).
    destruct (Discriminator.forward _ h s1) as [[nc s2]|]; [|reflexivity].
    now rewrite (discriminator_zero_mode _ h s2 Ha).
  - intros m x adj s He Hd. unfold SingleTask.forward, bind.
    cbn [SingleTask.eval SingleTask.encoder SingleTask.discriminator].
    rewrite (encoder_zero_mode _ x adj s He).
    destruct (Encoder.forward _ x adj s) as [[h s1]|]; [|reflexivity].
    now rewrite (discriminator_zero_mode _ h s1 Hd).
Qed.

End ModeAndGenerator.

Lemma inference_consumes_no_randomness_witness :
  exists y, MultiTask.forward (MultiTask.eval demo_multitask) demo_X demo_A
              demo_state_neighbor_trained
            = Ok (y, demo_state_neighbor_trained).
Proof.
  destruct (MultiTask.forward (MultiTask.eval demo_multitask) demo_X demo_A
              demo_state_neighbor_trained) as [[y s']|e] eqn:E;
    [|vm_compute in E; discriminate E].
  exists y. f_equal. f_equal.
  exact (proj1 (proj2 (proj2 (@inference_consumes_no_randomness Zscalar)))
           (MultiTask.eval demo_multitask) demo_X demo_A
           demo_state_neighbor_trained y s'
           (or_introl eq_refl) (or_introl eq_refl) (or_introl eq_refl) E).
Defined.

Lemma zero_dropout_ignores_mode_witness :
  MultiTask.forward demo_multitask demo_X demo_A demo_state =
  MultiTask.forward (MultiTask.eval demo_multitask) demo_X demo_A demo_state.
Proof.
  apply (proj1 (proj2 (proj2 (@zero_dropout_ignores_mode Zscalar)))
           demo_multitask demo_X demo_A demo_state);
    reflexivity.
Defined.

(** ** The heads work node by node *)

Section RowWise.
Context {Sc : Scalar}.

Lemma mget_relu (N c : nat) (X : tensor) (r f : nat) :
  shape X = [N; c] -> r < N -> f < c ->
  mget (Torch.relu X) r f =
  if ltb (mget X r f) zero then zero else mget X r f.
Proof.
  intros HX Hr Hf. destruct (shape_Mat _ _ _ HX) as [d ->].
  unfold Torch.relu, Torch.tmap, Torch.tmapi.
  now rewrite mget_mtab.
Qed.

Lemma linear_output_row (st : state) (l : Linear.t) (N N' i o : nat)
    (X X' : tensor) (r r' k : nat) :
  r < N -> r' < N' -> k < o ->
  (forall f, f < i -> mget X r f = mget X' r' f) ->
  mget (linear_output st l N i o X) r k =
  mget (linear_output st l N' i o X') r' k.
Proof.
  intros Hr Hr' Hk HX. unfold linear_output.
  rewrite !mget_mtab by assumption. f_equal. unfold projected.
  apply sum_ext. intros f Hf. now rewrite HX.
Qed.

(** X12.  In inference mode a head computes the logits of a node from the
    embedding of that node alone: if row r of X and row r' of X' are the
    same (X and X' of shapes (N, nin) and (N', nin)), row r of the logits
    for X and row r' of the logits for X' are the same.  So the logits of
    a subset of the nodes can be computed on that subset. *)
Theorem Discriminator_is_row_wise (st : state) (d : Discriminator.t)
    (N N' nin nout : nat) (X X' : tensor) (r r' : nat) :
  discriminator_wf st d nin nout ->
  Discriminator.training d = false ->
  valid_p (Discriminator.dropout d) = true ->
  shape X = [N; nin] -> shape X' = [N'; nin] ->
  r < N -> r' < N' ->
  (forall f, f < nin -> mget X r f = mget X' r' f) ->
  exists Y Y',
    Discriminator.forward d X st = Ok (Y, st) /\
    Discriminator.forward d X' st = Ok (Y', st) /\
    shape Y = [N; nout] /\ shape Y' = [N'; nout] /\
    forall k, k < nout -> mget Y r k = mget Y' r' k.
Proof.
  intros W Htr Hp HX HX' Hr Hr' Hrow.
  exists (discriminator_output st d N nin nout X),
         (discriminator_output st d N' nin nout X').
  split; [now apply discriminator_forward_eval|].
  split; [now apply discriminator_forward_eval|].
  split; [reflexivity|]. split; [reflexivity|].
  intros k Hk. unfold discriminator_output.
  apply linear_output_row; try assumption.
  intros f Hf.
  rewrite (mget_relu N (nin / 2)), (mget_relu N' (nin / 2));
    try assumption; try reflexivity.
  rewrite (linear_output_row st (Discriminator.lr1 d) N N' nin (nin / 2)
             (Torch.relu X) (Torch.relu X') r r' f Hr Hr' Hf);
    [reflexivity|].
  intros f' Hf'.
  rewrite (mget_relu N nin X), (mget_relu N' nin X') by assumption.
  now rewrite Hrow.
Qed.

End RowWise.

Lemma Discriminator_is_row_wise_witness :
  exists Y Y',
    Discriminator.forward
      (Discriminator.eval (@discriminator_at Zscalar 4 2 3 0%Z))
      (@Mat Zscalar 3 2 [[11; 15]; [17; 21]; [14; 18]]%Z) demo_state
      = Ok (Y, demo_state) /\
    Discriminator.forward
      (Discriminator.eval (@discriminator_at Zscalar 4 2 3 0%Z))
      (@Mat Zscalar 1 2 [[17; 21]]%Z) demo_state
      = Ok (Y', demo_state) /\
    shape Y = [3; 3] /\ shape Y' = [1; 3] /\
    forall k, k < 3 -> mget Y 1 k = mget Y' 0 k.
Proof.
  apply (@Discriminator_is_row_wise Zscalar demo_state
           (Discriminator.eval (@discriminator_at Zscalar 4 2 3 0%Z))
           3 1 2 3);
    try reflexivity; try lia.
  repeat split; reflexivity.
Defined.

(** ** GraphConvolution.__repr__ *)

Section ReprProperties.
Import Stdlib.Strings.String Stdlib.Strings.Ascii.
Local Open Scope string_scope.

Lemma string_app_assoc (a b c : string) : (a ++ b) ++ c = a ++ (b ++ c).
Proof. induction a as [|x a IH]; cbn; [reflexivity|now rewrite IH]. Qed.

Lemma string_app_inv_head (a x y : string) : a ++ x = a ++ y -> x = y.
Proof.
  induction a as [|c a IH]; cbn; intros H; [exact H|].
  inversion H. now apply IH.
Qed.

(** The text before the first occurrence of a separator is determined. *)
Lemma split_at_separator (c : ascii) (a a' r r' : string) :
  mem_char c a = false -> mem_char c a' = false ->
  a ++ String c r = a' ++ String c r' -> a = a' /\ r = r'.
Proof.
  revert a'. induction a as [|x a IH]; intros [|x' a'] Ha Ha' H; cbn in *.
  - inversion H. now split.
  - inversion H; subst. now rewrite Ascii.eqb_refl in Ha'.
  - inversion H; subst. now rewrite Ascii.eqb_refl in Ha.
  - inversion H; subst.
    apply orb_false_elim in Ha as [_ Ha].
    apply orb_false_elim in Ha' as [_ Ha'].
    destruct (IH a' Ha Ha' H2) as [-> ->]. now split.
Qed.

(** A character that is neither a digit nor the sign is not in [str(z)]. *)
Lemma str_int_chars (c : ascii) (z : Z) :
  mem_char c "0123456789-" = false -> mem_char c (str_int z) = false.
Proof.
  intros H. cbn in H.
  repeat (apply orb_false_elim in H; destruct H as [? H]).
  assert (U : forall d, mem_char c (DecimalString.NilEmpty.string_of_uint d)
                        = false).
  { induction d; cbn; try reflexivity;
      match goal with |- (?b || _)%bool = false =>
        replace b with false by (symmetry; assumption) end;
      exact IHd. }
  assert (V : forall d, mem_char c (DecimalString.NilZero.string_of_uint d)
                        = false).
  { intros d. destruct d; try apply U. cbn.
    match goal with |- (?b || _)%bool = false =>
      replace b with false by (symmetry; assumption) end.
    reflexivity. }
  unfold str_int. destruct (Z.to_int z) as [d|d]; cbn; [apply V|].
  match goal with |- (?b || _)%bool = false =>
    replace b with false by (symmetry; assumption) end.
  apply V.
Qed.

Lemma str_int_injective (z1 z2 : Z) : str_int z1 = str_int z2 -> z1 = z2.
Proof.
  intros H.
  assert (P : forall z, DecimalString.NilZero.int_of_string (str_int z)
                        = Some (Z.to_int z)).
  { intros z. unfold str_int. apply DecimalString.NilZero.isi.
    - destruct z; cbn; try discriminate.
      intros E. inversion E.
      now apply (DecimalPos.Unsigned.to_uint_nonnil p).
    - destruct z; cbn; try discriminate.
      intros E. inversion E.
      now apply (DecimalPos.Unsigned.to_uint_nonnil p). }
  pose proof (P z1) as P1. rewrite H, P in P1. inversion P1 as [E].
  rewrite <- (DecimalZ.of_to z1), <- (DecimalZ.of_to z2). now rewrite E.
Qed.

(** X14.  The text [__repr__] returns determines the two sizes: layers
    with the same repr have the same in_features and the same
    out_features. *)
Theorem GraphConvolution_repr_injective (g1 g2 : GraphConvolution.t) :
  GraphConvolution.repr g1 = GraphConvolution.repr g2 ->
  GraphConvolution.in_features g1 = GraphConvolution.in_features g2 /\
  GraphConvolution.out_features g1 = GraphConvolution.out_features g2.
Proof.
  unfold GraphConvolution.repr. rewrite !string_app_assoc. intros H.
  apply string_app_inv_head, string_app_inv_head in H.
  change (" -> " ++ ?x) with (String " " ("-> " ++ x)) in H.
  apply split_at_separator in H; try (now apply str_int_chars).
  destruct H as [E1 H]. apply string_app_inv_head in H.
  change ")" with (String ")" "") in H.
  apply split_at_separator in H; try (now apply str_int_chars).
  destruct H as [E2 _].
  split; now apply str_int_injective.
Qed.

Example GraphConvolution_repr_run :
  GraphConvolution.repr (gc_at 0 1433 16 true) = "GraphConvolution (1433 -> 16)"
  /\ GraphConvolution.repr (gc_at 7 0 (-2) false) = "GraphConvolution (0 -> -2)".
Proof. split; reflexivity. Qed.

End ReprProperties.

Lemma GraphConvolution_repr_injective_witness :
  GraphConvolution.in_features (gc_at 0 3 5 true)
    = GraphConvolution.in_features (gc_at 4 3 5 false) /\
  GraphConvolution.out_features (gc_at 0 3 5 true)
    = GraphConvolution.out_features (gc_at 4 3 5 false).
Proof.
  apply (GraphConvolution_repr_injective (gc_at 0 3 5 true)
           (gc_at 4 3 5 false)).
  reflexivity.
Defined.

(** ** A feature matrix of the wrong width *)

Section WrongWidth.
Context {Sc : Scalar}.

Lemma encoder_forward_wrong_width (st : state) (e : Encoder.t)
    (N k nfeat nhid : nat) (X adj : tensor) :
  encoder_wf st e nfeat nhid -> valid_p (Encoder.dropout e) = true ->
  shape X = [N; k] -> k <> nfeat ->
  Encoder.forward e X adj st = Raise RuntimeError.
Proof.
  intros [W1 _] Hp HX Hk. unfold Encoder.forward, bind.
  destruct (dropout_run X _ (Encoder.training e) st Hp)
    as (x1 & s1 & -> & Hx1 & Hs1).
  rewrite HX in Hx1. destruct (shape_Mat _ _ _ Hx1) as [d ->].
  now rewrite (gc_forward_width_mismatch s1 _ nfeat nhid N k d adj
                 (gc_wf_params st s1 _ _ _ Hs1 W1) Hk).
Qed.

(** X15.  A feature matrix whose number of columns is not nfeat makes the
    forward pass of an Encoder, and with it that of a MultiTask or
    SingleTask model, raise RuntimeError, in either mode and whatever
    [adj] is (the dropout probability being one that dropout accepts). *)
Theorem wrong_feature_width_raises (st : state) (N k nfeat nhid : nat)
    (X adj : tensor) :
  shape X = [N; k] -> k <> nfeat ->
  (forall e : Encoder.t,
     encoder_wf st e nfeat nhid -> valid_p (Encoder.dropout e) = true ->
     Encoder.forward e X adj st = Raise RuntimeError) /\
  (forall m : MultiTask.t,
     encoder_wf st (MultiTask.encoder m) nfeat nhid ->
     valid_p (Encoder.dropout (MultiTask.encoder m)) = true ->
     MultiTask.forward m X adj st = Raise RuntimeError) /\
  (forall m : SingleTask.t,
     encoder_wf st (SingleTask.encoder m) nfeat nhid ->
     valid_p (Encoder.dropout (SingleTask.encoder m)) = true ->
     SingleTask.forward m X adj st = Raise RuntimeError).
Proof.
  intros HX Hk. split; [|split].
  - intros e W Hp. now apply (encoder_forward_wrong_width st e N k nfeat nhid).
  - intros m W Hp. unfold MultiTask.forward, bind.
    now rewrite (encoder_forward_wrong_width st _ N k nfeat nhid X adj W Hp).
  - intros m W Hp. unfold SingleTask.forward, bind.
    now rewrite (encoder_forward_wrong_width st _ N k nfeat nhid X adj W Hp).
Qed.

End WrongWidth.

Lemma wrong_feature_width_raises_witness :
  MultiTask.forward demo_multitask
    (@Mat Zscalar 3 3 [[1; 2; 0]; [0; -1; 0]; [2; 3; 0]]%Z) demo_A demo_state
  = Raise RuntimeError.
Proof.
  apply (proj1 (proj2 (@wrong_feature_width_raises Zscalar demo_state 3 3 2 2
                         (@Mat Zscalar 3 3 [[1; 2; 0]; [0; -1; 0]; [2; 3; 0]]%Z)
                         demo_A eq_refl ltac:(discriminate)))).
  - repeat split; reflexivity.
  - reflexivity.
Defined.
